(** * Uptime Kuma monitor seeder: migrations/001_seed_monitors.ts

    A shallow embedding of the migration script and the properties of
    its seed, clear and orchestration steps.

    The script talks to a SQLite file through three statements:
      - [SELECT id FROM monitor WHERE url = $url]
      - [INSERT INTO monitor (...) VALUES (...)]
      - [DELETE FROM monitor WHERE url LIKE '<base>%']
    and one scalar [SELECT COUNT( * )].  The [monitor] table is modelled
    as the list of its rows in rowid order; console output is modelled
    as a list of structured events, one per message.

    One storage failure is modelled: the INSERT on an AUTOINCREMENT
    table whose row ids are used up fails with SQLITE_FULL.  The script
    has no handler for it, so the exception leaves [seedMonitors] and
    [main] and the process ends with a non-zero status.  Failures of the
    environment (a locked or corrupt file, a full disk) are outside the
    model. *)

From Stdlib Require Import ZArith List Bool Ascii String Lia.
Import ListNotations.

Local Open Scope string_scope.
Local Open Scope list_scope.

(** ** SQLite text operators used by the statements *)

Module Sqlite.

(** [sqlite3Tolower]: only the 26 upper-case ASCII letters fold. *)
Definition tolower (c : ascii) : ascii :=
  let n := nat_of_ascii c in
  if (65 <=? n)%nat && (n <=? 90)%nat then ascii_of_nat (n + 32) else c.

(** Comparison of two characters under the default (case-insensitive)
    LIKE. *)
Definition like_char (p c : ascii) : bool :=
  Ascii.eqb (tolower p) (tolower c).

Definition is_wildcard (c : ascii) : bool :=
  Ascii.eqb c "%" || Ascii.eqb c "_".

(** [X LIKE P] without an ESCAPE clause: [%] matches any run of
    characters, [_] any single one, every other character matches
    itself up to ASCII case.  The first argument is the pattern. *)
Fixpoint like (pat s : string) {struct pat} : bool :=
  match pat with
  | EmptyString =>
      match s with EmptyString => true | String _ _ => false end
  | String p pat' =>
      if Ascii.eqb p "%" then
        (fix any_run (t : string) : bool :=
           like pat' t
           || match t with
              | EmptyString => false
              | String _ t' => any_run t'
              end) s
      else if Ascii.eqb p "_" then
        match s with
        | EmptyString => false
        | String _ s' => like pat' s'
        end
      else
        match s with
        | EmptyString => false
        | String c s' => like_char p c && like pat' s'
        end
  end.

(** Prefix test up to ASCII case. *)
Fixpoint prefix_nocase (p s : string) : bool :=
  match p with
  | EmptyString => true
  | String a p' =>
      match s with
      | EmptyString => false
      | String b s' => like_char a b && prefix_nocase p' s'
      end
  end.

Fixpoint no_wildcard (p : string) : bool :=
  match p with
  | EmptyString => true
  | String a p' => negb (is_wildcard a) && no_wildcard p'
  end.

(** [WHERE col = $param] on a nullable TEXT column with the default
    BINARY collation: NULL never compares equal, text compares byte by
    byte. *)
Definition text_eq (col : option string) (param : string) : bool :=
  match col with
  | None => false
  | Some v => String.eqb v param
  end.

(** [WHERE col LIKE pat]: NULL never matches. *)
Definition text_like (col : option string) (pat : string) : bool :=
  match col with
  | None => false
  | Some v => like pat v
  end.

End Sqlite.

(** ** Data model *)

(** An entry of the [monitors] array literal. *)
Module Def.
Record t := mk {
  name : string;
  path : string;
  description : string;
  timeout : option Z;
  keyword : option string
}.
End Def.

(** A row of the [monitor] table, restricted to the primary key and the
    columns the INSERT statement names.  NULL-able TEXT columns are
    [option string]. *)
Module Row.
Record t := mk {
  id : Z;
  name : string;
  active : Z;
  user_id : Z;
  interval : Z;
  url : option string;
  type : string;
  weight : Z;
  method : string;
  maxretries : Z;
  ignore_tls : Z;
  upside_down : Z;
  maxredirects : Z;
  accepted_statuscodes_json : string;
  dns_resolve_type : string;
  dns_resolve_server : option string;
  retry_interval : Z;
  http_body_encoding : option string;
  timeout : Z;
  resend_interval : Z;
  packet_size : Z;
  gamedig_given_port_only : Z;
  kafka_producer_ssl : Z;
  kafka_producer_allow_auto_topic_creation : Z;
  mqtt_check_type : string;
  json_path_operator : option string;
  cache_bust : Z;
  conditions : string;
  ping_count : Z;
  ping_numeric : Z;
  ping_per_request_timeout : Z;
  description : option string;
  keyword : option string
}.
End Row.

(** The storage file: the rows of [monitor] and the AUTOINCREMENT
    high-water mark SQLite keeps for the table.  Row ids are assigned by
    the storage, never by the script. *)
Record Database := mkDatabase {
  monitor : list Row.t;
  seq : Z
}.

(** The messages written to the console: the boxed banner, the
    two-line "database not found" error, one line per clear, per
    definition, for the summary and for the total, the closing
    lines, and the runtime's report of an uncaught exception. *)
Inductive event :=
| LogBanner
| LogDbNotFound
| LogCleared (changes : nat)
| LogSkipped (name : string)
| LogInserted (name : string)
| LogSummary (inserted skipped : nat)
| LogTotal (count : nat)
| LogComplete
| LogUncaught.

(** ** Configuration *)

Definition MOCK_SERVER_BASE : string := "http://host.docker.internal:3000".
Definition DEFAULT_USER_ID : Z := 1.

(** The literal on the right of [monitor.timeout ?? 48]. *)
Definition DEFAULT_TIMEOUT : Z := 48.

(** Shapes of the object literals of the catalogue: name, path and
    description only, or with a timeout as well. *)
Definition plain (n p d : string) : Def.t := Def.mk n p d None None.
Definition timed (n p d : string) (t : Z) : Def.t := Def.mk n p d (Some t) None.

Definition monitors : list Def.t :=
  [ plain "Always Up" "/always-up" "Always returns 200 OK";
    plain "Always Down" "/always-down" "Always returns 500 error";
    plain "Random Failures (20%)" "/random-failures" "20% chance of failure";
    plain "Frequent Failures (50%)" "/frequent-failures" "50% chance of failure";
    plain "Intermittent (Every 3rd)" "/intermittent" "Fails every 3rd request";
    plain "Flapping" "/flapping" "Alternates between up and down";
    timed "Slow Response" "/slow-response" "2-5 second delay" 10;
    timed "Very Slow" "/very-slow" "10-15 second delay (may timeout)" 20;
    timed "Timeout Simulation" "/timeout" "Never responds (tests timeout handling)" 5;
    plain "Memory Leak Sim" "/memory-leak" "Gets slower with each request";
    plain "Degraded Status" "/degraded" "Returns 200 with degraded status";
    plain "Maintenance Mode" "/maintenance" "Returns 503 maintenance mode";
    plain "Scheduled Downtime" "/scheduled-down" "Down during minutes 0-5 and 30-35";
    plain "Partial Outage" "/partial-outage" "Random partial service outage";
    plain "Rate Limited" "/rate-limited" "Returns 429 after 10 req/min";
    plain "Health Check" "/health" "Detailed health check response";
    plain "Ping" "/ping" "Simple ping/pong";
    Def.mk "Keyword Check" "/keyword-check" "JSON with monitorable keywords"
           None (Some "OPERATIONAL");
    plain "HTML Status" "/html-status" "HTML page with status";
    plain "Cert Check" "/cert-check" "Certificate expiry simulation";
    plain "Docker Healthy" "/docker/healthy" "Healthy container status";
    plain "Docker Unhealthy" "/docker/unhealthy" "Unhealthy container status" ].

(** ** Prepared statements *)

(** The double-quote character, for the JSON literal of
    accepted_statuscodes_json. *)
Definition dquote : ascii := ascii_of_nat 34.

Definition accepted_statuscodes : string :=
  String "[" (String dquote ("200-299" ++ String dquote "]")).

(** The WHERE clause of [SELECT id FROM monitor WHERE url = $url],
    evaluated on one row. *)
Definition where_url (url : string) (r : Row.t) : bool :=
  Sqlite.text_eq (Row.url r) url.

(** [existingStmt.get({ $url })]: the id of the first selected row, or
    nothing. *)
Definition existingStmt_get (db : Database) (url : string) : option Z :=
  option_map Row.id (find (where_url url) (monitor db)).

(** Row ids are signed 64-bit integers; this is the largest. *)
Definition MAX_ROWID : Z := 9223372036854775807.

Definition max_rowid (rows : list Row.t) : Z :=
  fold_right (fun r acc => Z.max (Row.id r) acc) 0%Z rows.

(** The largest row id the table holds or has ever held. *)
Definition rowid_mark (db : Database) : Z :=
  Z.max (seq db) (max_rowid (monitor db)).

(** The row id an AUTOINCREMENT table hands out next: one more than the
    mark, and none once the largest id has been used. *)
Definition next_rowid (db : Database) : option Z :=
  if (MAX_ROWID <=? rowid_mark db)%Z then None
  else Some (rowid_mark db + 1)%Z.

(** The row written by the INSERT statement: six bound parameters, every
    other column a literal of the VALUES list. *)
Definition insert_row (rowid : Z) (p_name : string) (p_user_id : Z)
    (p_url : string) (p_timeout : Z) (p_description : string)
    (p_keyword : option string) : Row.t :=
  {| Row.id := rowid;
     Row.name := p_name;
     Row.active := 1;
     Row.user_id := p_user_id;
     Row.interval := 60;
     Row.url := Some p_url;
     Row.type := "http";
     Row.weight := 2000;
     Row.method := "GET";
     Row.maxretries := 0;
     Row.ignore_tls := 0;
     Row.upside_down := 0;
     Row.maxredirects := 10;
     Row.accepted_statuscodes_json := accepted_statuscodes;
     Row.dns_resolve_type := "A";
     Row.dns_resolve_server := None;
     Row.retry_interval := 0;
     Row.http_body_encoding := None;
     Row.timeout := p_timeout;
     Row.resend_interval := 0;
     Row.packet_size := 56;
     Row.gamedig_given_port_only := 1;
     Row.kafka_producer_ssl := 0;
     Row.kafka_producer_allow_auto_topic_creation := 0;
     Row.mqtt_check_type := "keyword";
     Row.json_path_operator := None;
     Row.cache_bust := 0;
     Row.conditions := "[]";
     Row.ping_count := 1;
     Row.ping_numeric := 1;
     Row.ping_per_request_timeout := 2;
     Row.description := Some p_description;
     Row.keyword := p_keyword |}.

(** [insertStmt.run({...})]: append the row under a fresh id.  When no
    id is left the statement throws (SQLITE_FULL) and the storage stays
    as it is: the result is [None]. *)
Definition insertStmt_run (db : Database) (p_name : string) (p_user_id : Z)
    (p_url : string) (p_timeout : Z) (p_description : string)
    (p_keyword : option string) : option Database :=
  match next_rowid db with
  | None => None
  | Some rowid =>
      Some {| monitor := monitor db ++
                         [insert_row rowid p_name p_user_id p_url p_timeout
                                     p_description p_keyword];
              seq := rowid |}
  end.

(** ** seedMonitors *)

(** What the [for] loop carries from one definition to the next: the
    storage, the two counters and the lines printed so far; [thrown]
    tells that the iteration just run ended in the INSERT's exception. *)
Record SeedState := mkSeedState {
  st_db : Database;
  inserted : nat;
  skipped : nat;
  st_out : list event;
  thrown : bool
}.

(** [`${MOCK_SERVER_BASE}${monitor.path}`] *)
Definition monitor_url (m : Def.t) : string :=
  MOCK_SERVER_BASE ++ Def.path m.

(** [monitor.timeout ?? 48] *)
Definition timeout_or_default (m : Def.t) : Z :=
  match Def.timeout m with
  | Some t => t
  | None => DEFAULT_TIMEOUT
  end.

(** The body of the [for (const monitor of monitors)] loop.  When the
    INSERT throws, nothing after it in the body is run. *)
Definition seed_step (st : SeedState) (m : Def.t) : SeedState :=
  let url := monitor_url m in
  match existingStmt_get (st_db st) url with
  | Some _ =>
      {| st_db := st_db st;
         inserted := inserted st;
         skipped := S (skipped st);
         st_out := st_out st ++ [LogSkipped (Def.name m)];
         thrown := false |}
  | None =>
      match insertStmt_run (st_db st) (Def.name m) DEFAULT_USER_ID url
              (timeout_or_default m) (Def.description m) (Def.keyword m)
      with
      | Some db' =>
          {| st_db := db';
             inserted := S (inserted st);
             skipped := skipped st;
             st_out := st_out st ++ [LogInserted (Def.name m)];
             thrown := false |}
      | None =>
          {| st_db := st_db st;
             inserted := inserted st;
             skipped := skipped st;
             st_out := st_out st;
             thrown := true |}
      end
  end.

(** The loop: definitions are taken in order, and an exception ends it
    at once. *)
Fixpoint seed_loop (defs : list Def.t) (st : SeedState) : SeedState :=
  match defs with
  | [] => st
  | m :: rest =>
      let st' := seed_step st m in
      if thrown st' then st' else seed_loop rest st'
  end.

(** The state in which the loop ends when started on [db] with both
    counters at zero. *)
Definition seed_run (defs : list Def.t) (db : Database) : SeedState :=
  seed_loop defs (mkSeedState db 0 0 [] false).

(** The seed operation over an arbitrary catalogue: the storage it
    leaves and the lines it prints.  The summary line is printed only
    when the loop ran to its end. *)
Definition seed_catalogue (defs : list Def.t) (db : Database)
  : Database * list event :=
  let st := seed_run defs db in
  (st_db st,
   st_out st ++ if thrown st then []
                else [LogSummary (inserted st) (skipped st)]).

(** Does the seed operation end in an exception instead of returning? *)
Definition seed_throws (defs : list Def.t) (db : Database) : bool :=
  thrown (seed_run defs db).

Definition seedMonitors (db : Database) : Database * list event :=
  seed_catalogue monitors db.

Definition seedMonitors_throws (db : Database) : bool :=
  seed_throws monitors db.

(** ** clearMonitors *)

(** The pattern spliced into the DELETE statement. *)
Definition clear_pattern : string := MOCK_SERVER_BASE ++ "%".

Definition clear_matches (r : Row.t) : bool :=
  Sqlite.text_like (Row.url r) clear_pattern.

(** [DELETE FROM monitor WHERE url LIKE '<base>%']; [result.changes] is
    the number of rows removed.  A DELETE leaves the AUTOINCREMENT mark
    alone. *)
Definition clearMonitors (db : Database) : Database * list event :=
  let kept := filter (fun r => negb (clear_matches r)) (monitor db) in
  let changes := List.length (filter clear_matches (monitor db)) in
  ({| monitor := kept; seq := seq db |}, [LogCleared changes]).

(** ** main *)

Definition includes (args : list string) (x : string) : bool :=
  existsb (String.eqb x) args.

Definition shouldClear (args : list string) : bool :=
  includes args "--clear" || includes args "-c".

Definition shouldForce (args : list string) : bool :=
  includes args "--force" || includes args "-f".

(** [SELECT COUNT( * ) as count FROM monitor] *)
Definition count_monitors (db : Database) : nat := List.length (monitor db).

(** The whole run.  [file] is the storage file found at DB_PATH, if any;
    [argv] is [process.argv].  The result is the exit status, the
    storage file afterwards and the console output.  An exception out
    of [seedMonitors] passes the [finally] block and leaves [main]
    uncaught: the count and the closing lines are not printed and the
    process exits with status 1. *)
Definition main (argv : list string) (file : option Database)
  : Z * option Database * list event :=
  match file with
  | None => (1%Z, None, [LogBanner; LogDbNotFound])
  | Some db =>
      let args := skipn 2 argv in
      let '(db1, out1) :=
        if shouldClear args then clearMonitors db else (db, []) in
      let '(db2, out2) :=
        if shouldForce args then clearMonitors db1 else (db1, []) in
      let '(db3, out3) := seedMonitors db2 in
      if seedMonitors_throws db2 then
        (1%Z, Some db3, [LogBanner] ++ out1 ++ out2 ++ out3 ++ [LogUncaught])
      else
        (0%Z, Some db3,
         [LogBanner] ++ out1 ++ out2 ++ out3
           ++ [LogTotal (count_monitors db3); LogComplete])
  end.

Definition exit_status (r : Z * option Database * list event) : Z :=
  fst (fst r).
Definition final_storage (r : Z * option Database * list event)
  : option Database := snd (fst r).
Definition output (r : Z * option Database * list event) : list event :=
  snd r.

Definition empty_db : Database := {| monitor := []; seq := 0 |}.

(** [process.argv] of [bun run migrations/001_seed_monitors.ts flags]. *)
Definition bun_argv (flags : list string) : list string :=
  "bun" :: "migrations/001_seed_monitors.ts" :: flags.

(** ** Vocabulary of the properties *)

(** Byte-wise "begins with the base URL". *)
Definition begins_with_base (r : Row.t) : bool :=
  match Row.url r with
  | None => false
  | Some u => String.prefix MOCK_SERVER_BASE u
  end.

(** "Begins with the base URL" up to ASCII case. *)
Definition begins_with_base_nocase (r : Row.t) : bool :=
  match Row.url r with
  | None => false
  | Some u => Sqlite.prefix_nocase MOCK_SERVER_BASE u
  end.

(** Number of rows carrying a given url. *)
Definition url_count (u : string) (db : Database) : nat :=
  List.length (filter (where_url u) (monitor db)).

Definition has_url (u : string) (db : Database) : bool :=
  existsb (where_url u) (monitor db).

(** The row the seeder writes for a definition. *)
Definition row_of_def (rowid : Z) (m : Def.t) : Row.t :=
  insert_row rowid (Def.name m) DEFAULT_USER_ID (monitor_url m)
             (timeout_or_default m) (Def.description m) (Def.keyword m).

(** A sequence of seed and clear operations. *)
Inductive operation := Seed | Clear.

Definition run_operation (db : Database) (o : operation) : Database :=
  match o with
  | Seed => fst (seedMonitors db)
  | Clear => fst (clearMonitors db)
  end.

Definition run_operations (ops : list operation) (db : Database) : Database :=
  fold_left run_operation ops db.

(** What [main] has done when it calls [seedMonitors]: the storage the
    clear steps leave, and their lines. *)
Definition before_seed (argv : list string) (db : Database)
  : Database * list event :=
  let args := skipn 2 argv in
  let c1 := if shouldClear args then clearMonitors db else (db, []) in
  let c2 := if shouldForce args then clearMonitors (fst c1)
            else (fst c1, []) in
  (fst c2, snd c1 ++ snd c2).

(** The storage after a successful INSERT of [r]. *)
Definition with_row (db : Database) (r : Row.t) : Database :=
  {| monitor := monitor db ++ [r]; seq := Row.id r |}.

(** Are [n] more row ids left? *)
Definition rowids_left (n : nat) (db : Database) : Prop :=
  (rowid_mark db + Z.of_nat n <= MAX_ROWID)%Z.

(** An empty table whose AUTOINCREMENT mark is [k] short of the
    largest row id. *)
Definition nearly_full_db (k : Z) : Database :=
  {| monitor := []; seq := MAX_ROWID - k |}.

(** Does the catalogue name this url? *)
Definition in_catalogue (u : string) (defs : list Def.t) : bool :=
  existsb (fun d => String.eqb (monitor_url d) u) defs.

(** Pairwise distinctness of a list of strings, as a check. *)
Fixpoint distinct (l : list string) : bool :=
  match l with
  | [] => true
  | x :: rest => negb (existsb (String.eqb x) rest) && distinct rest
  end.

(** A row the monitoring application could hold: same host written in
    upper case, so its url does not begin, byte for byte, with the base
    URL. *)
Definition upper_host_row : Row.t :=
  insert_row 7 "Legacy probe" 1 "http://HOST.DOCKER.INTERNAL:3000/legacy"
             30 "kept by the operator" None.

Definition upper_host_db : Database :=
  {| monitor := [upper_host_row]; seq := 7 |}.

(** A stored row for /ping whose name, timeout and description differ
    from what the catalogue now says. *)
Definition stale_ping_row : Row.t :=
  insert_row 3 "Old ping" 1 "http://host.docker.internal:3000/ping"
             5 "renamed since" (Some "PONG").

(** A second definition on the path of [d]. *)
Definition again (d : Def.t) : Def.t :=
  Def.mk "Ping again" (Def.path d) "same path twice" (Some 7%Z) None.

(** ** The banner line of [main] *)

(** [s.lastIndexOf(c)]: the position of the last occurrence of [c], or
    -1.  [i] is the position of the head of [s], [found] the last
    occurrence seen so far. *)
Fixpoint lastIndexOf_from (c : ascii) (s : string) (i found : Z) : Z :=
  match s with
  | EmptyString => found
  | String a s' =>
      lastIndexOf_from c s' (i + 1)%Z (if Ascii.eqb a c then i else found)
  end.

Definition lastIndexOf (c : ascii) (s : string) : Z :=
  lastIndexOf_from c s 0%Z (-1)%Z.

Fixpoint string_drop (n : nat) (s : string) : string :=
  match n, s with
  | O, _ => s
  | S n', EmptyString => EmptyString
  | S n', String _ s' => string_drop n' s'
  end.

(** [s.substring(start)]: a negative start counts as 0, a start past
    the end gives the empty string. *)
Definition substring_from (start : Z) (s : string) : string :=
  string_drop (Z.to_nat start) s.

Fixpoint spaces (n : nat) : string :=
  match n with
  | O => EmptyString
  | S n' => String " " (spaces n')
  end.

(** [s.padEnd(n)]: spaces are appended up to length [n]; a string that
    is long enough is returned as it is. *)
Definition padEnd (n : nat) (s : string) : string :=
  (s ++ spaces (n - String.length s))%string.

(** [DB_PATH.substring(DB_PATH.lastIndexOf("/") + 1).padEnd(47)], the
    text between the bars of the banner's "Database:" line. *)
Definition banner_database_field (db_path : string) : string :=
  padEnd 47 (substring_from (lastIndexOf "/" db_path + 1)%Z db_path).

Fixpoint has_char (c : ascii) (s : string) : bool :=
  match s with
  | EmptyString => false
  | String a s' => Ascii.eqb a c || has_char c s'
  end.

(** ** Reading the console output *)

Definition is_inserted (e : event) : bool :=
  match e with LogInserted _ => true | _ => false end.

Definition is_skipped (e : event) : bool :=
  match e with LogSkipped _ => true | _ => false end.

(** The definition a per-definition line is about. *)
Definition line_name (e : event) : option string :=
  match e with
  | LogSkipped n | LogInserted n => Some n
  | _ => None
  end.

Definition count_lines (p : event -> bool) (lines : list event) : nat :=
  List.length (filter p lines).

(** The four spellings [main] looks for in its arguments. *)
Definition recognised (a : string) : bool :=
  String.eqb a "--clear" || String.eqb a "-c"
  || String.eqb a "--force" || String.eqb a "-f".

(** Rows the DELETE of [clearMonitors] does not select. *)
Definition foreign (r : Row.t) : bool := negb (clear_matches r).

(** * Properties *)

(** ** SQLite operators *)

Lemma like_char_refl c : Sqlite.like_char c c = true.
Proof. unfold Sqlite.like_char. apply Ascii.eqb_refl. Qed.

Lemma like_percent_all s : Sqlite.like "%" s = true.
Proof.
  induction s as [|c s IH]; [reflexivity|].
  simpl in *. exact IH.
Qed.

(** A pattern made of a wildcard-free text followed by [%] is a prefix
    test up to ASCII case. *)
Lemma like_prefix_pattern p s :
  Sqlite.no_wildcard p = true ->
  Sqlite.like (p ++ "%")%string s = Sqlite.prefix_nocase p s.
Proof.
  revert s. induction p as [|a p IH]; intros s Hw.
  - apply like_percent_all.
  - simpl in Hw. apply andb_true_iff in Hw as [Ha Hp].
    unfold Sqlite.is_wildcard in Ha.
    apply negb_true_iff, orb_false_iff in Ha as [Hpc Hus].
    change (String a p ++ "%")%string with (String a (p ++ "%")%string).
    cbn [Sqlite.like]. rewrite Hpc, Hus.
    destruct s as [|b s]; [reflexivity|].
    cbn [Sqlite.prefix_nocase]. rewrite IH by assumption. reflexivity.
Qed.

Lemma prefix_prefix_nocase p s :
  String.prefix p s = true -> Sqlite.prefix_nocase p s = true.
Proof.
  revert s. induction p as [|a p IH]; intros s H; [reflexivity|].
  destruct s as [|b s]; simpl in H; [discriminate|].
  destruct (ascii_dec a b) as [->|]; [|discriminate].
  simpl. rewrite like_char_refl. simpl. auto.
Qed.

Lemma clear_matches_nocase r : clear_matches r = begins_with_base_nocase r.
Proof.
  unfold clear_matches, begins_with_base_nocase, Sqlite.text_like, clear_pattern.
  destruct (Row.url r) as [u|]; [|reflexivity].
  apply like_prefix_pattern. reflexivity.
Qed.

Lemma where_url_spec u r : where_url u r = true <-> Row.url r = Some u.
Proof.
  unfold where_url, Sqlite.text_eq.
  destruct (Row.url r) as [v|].
  - rewrite String.eqb_eq. split; congruence.
  - split; discriminate.
Qed.

(** ** The two queries on rows *)

Lemma existing_none_iff db u :
  existingStmt_get db u = None <-> has_url u db = false.
Proof.
  unfold existingStmt_get, has_url.
  induction (monitor db) as [|r rows IH]; simpl; [tauto|].
  destruct (where_url u r); simpl; [|exact IH].
  split; discriminate.
Qed.

Lemma has_url_count u db : has_url u db = false <-> url_count u db = 0.
Proof.
  unfold has_url, url_count.
  induction (monitor db) as [|r rows IH]; simpl; [tauto|].
  destruct (where_url u r); simpl; [|exact IH].
  split; discriminate.
Qed.

Lemma has_url_in u db :
  has_url u db = true <->
  exists r, In r (monitor db) /\ Row.url r = Some u.
Proof.
  unfold has_url. rewrite existsb_exists.
  split; intros [r [Hin Hr]]; exists r; split; trivial;
    now apply where_url_spec.
Qed.

Lemma where_url_insert_row u rowid n uid url t d k :
  where_url u (insert_row rowid n uid url t d k) = String.eqb url u.
Proof. reflexivity. Qed.

(** ** Row ids *)

Lemma max_rowid_cons r rows :
  max_rowid (r :: rows) = Z.max (Row.id r) (max_rowid rows).
Proof. reflexivity. Qed.

Lemma max_rowid_nonneg rows : (0 <= max_rowid rows)%Z.
Proof.
  induction rows as [|r rows IH]; [cbn; lia|].
  rewrite max_rowid_cons. lia.
Qed.

Lemma max_rowid_app l l' :
  max_rowid (l ++ l') = Z.max (max_rowid l) (max_rowid l').
Proof.
  induction l as [|r l IH].
  - cbn [app]. change (max_rowid []) with 0%Z.
    pose proof (max_rowid_nonneg l'). lia.
  - cbn [app]. rewrite !max_rowid_cons, IH. lia.
Qed.

Lemma max_rowid_filter (p : Row.t -> bool) rows :
  (max_rowid (filter p rows) <= max_rowid rows)%Z.
Proof.
  induction rows as [|r rows IH]; [cbn; lia|].
  cbn [filter]. destruct (p r); rewrite !max_rowid_cons; lia.
Qed.

Lemma next_rowid_some db :
  (rowid_mark db < MAX_ROWID)%Z -> next_rowid db = Some (rowid_mark db + 1)%Z.
Proof.
  intros H. unfold next_rowid.
  destruct (MAX_ROWID <=? rowid_mark db)%Z eqn:E; [|reflexivity].
  apply Z.leb_le in E. lia.
Qed.

Lemma next_rowid_none db :
  next_rowid db = None <-> (MAX_ROWID <= rowid_mark db)%Z.
Proof.
  unfold next_rowid.
  destruct (MAX_ROWID <=? rowid_mark db)%Z eqn:E.
  - apply Z.leb_le in E. tauto.
  - apply Z.leb_gt in E. split; [discriminate|lia].
Qed.

Lemma next_rowid_value db rowid :
  next_rowid db = Some rowid ->
  rowid = (rowid_mark db + 1)%Z /\ (rowid_mark db < MAX_ROWID)%Z.
Proof.
  unfold next_rowid.
  destruct (MAX_ROWID <=? rowid_mark db)%Z eqn:E; [discriminate|].
  apply Z.leb_gt in E. intros H. injection H as <-. auto.
Qed.

Lemma rowid_mark_with_row db rowid r :
  next_rowid db = Some rowid -> Row.id r = rowid ->
  rowid_mark (with_row db r) = (rowid_mark db + 1)%Z.
Proof.
  intros H Hr. apply next_rowid_value in H as [-> _].
  unfold rowid_mark, with_row. cbn [monitor seq].
  rewrite max_rowid_app, max_rowid_cons, Hr.
  change (max_rowid []) with 0%Z.
  unfold rowid_mark. pose proof (max_rowid_nonneg (monitor db)). lia.
Qed.

Lemma insertStmt_run_some db n uid url t d k rowid :
  next_rowid db = Some rowid ->
  insertStmt_run db n uid url t d k
  = Some (with_row db (insert_row rowid n uid url t d k)).
Proof. intros H. unfold insertStmt_run. now rewrite H. Qed.

Lemma insertStmt_run_none db n uid url t d k :
  next_rowid db = None -> insertStmt_run db n uid url t d k = None.
Proof. intros H. unfold insertStmt_run. now rewrite H. Qed.

Lemma url_count_with_row u db r :
  url_count u (with_row db r) =
  url_count u db + (if where_url u r then 1 else 0).
Proof.
  unfold url_count, with_row. cbn [monitor].
  rewrite filter_app, length_app. cbn [filter].
  destruct (where_url u r); reflexivity.
Qed.

Lemma has_url_with_row u db r :
  has_url u (with_row db r) = has_url u db || where_url u r.
Proof.
  unfold has_url, with_row. cbn [monitor].
  rewrite existsb_app. cbn [existsb]. now rewrite orb_false_r.
Qed.

Lemma where_url_row_of_def u rowid m :
  where_url u (row_of_def rowid m) = String.eqb (monitor_url m) u.
Proof. reflexivity. Qed.

(** ** One iteration of the loop *)

Lemma seed_step_skip st m :
  has_url (monitor_url m) (st_db st) = true ->
  seed_step st m =
  {| st_db := st_db st;
     inserted := inserted st;
     skipped := S (skipped st);
     st_out := st_out st ++ [LogSkipped (Def.name m)];
     thrown := false |}.
Proof.
  intros H. unfold seed_step.
  destruct (existingStmt_get (st_db st) (monitor_url m)) eqn:E; [reflexivity|].
  apply existing_none_iff in E. congruence.
Qed.

Lemma seed_step_insert st m rowid :
  has_url (monitor_url m) (st_db st) = false ->
  next_rowid (st_db st) = Some rowid ->
  seed_step st m =
  {| st_db := with_row (st_db st) (row_of_def rowid m);
     inserted := S (inserted st);
     skipped := skipped st;
     st_out := st_out st ++ [LogInserted (Def.name m)];
     thrown := false |}.
Proof.
  intros H Hid. apply existing_none_iff in H.
  unfold seed_step. rewrite H.
  now rewrite (insertStmt_run_some _ _ _ _ _ _ _ _ Hid).
Qed.

Lemma seed_step_throw st m :
  has_url (monitor_url m) (st_db st) = false ->
  next_rowid (st_db st) = None ->
  seed_step st m =
  {| st_db := st_db st;
     inserted := inserted st;
     skipped := skipped st;
     st_out := st_out st;
     thrown := true |}.
Proof.
  intros H Hid. apply existing_none_iff in H.
  unfold seed_step. rewrite H.
  now rewrite (insertStmt_run_none _ _ _ _ _ _ _ Hid).
Qed.

(** Case analysis on one iteration: skipped, inserted or thrown, with
    the iteration rewritten accordingly. *)
Ltac seed_cases st m :=
  let E := fresh "Hseen" in
  let I := fresh "Hid" in
  let rowid := fresh "rowid" in
  destruct (has_url (monitor_url m) (st_db st)) eqn:E;
  [ rewrite (seed_step_skip st m E)
  | destruct (next_rowid (st_db st)) as [rowid|] eqn:I;
    [ rewrite (seed_step_insert st m rowid E I)
    | rewrite (seed_step_throw st m E I) ] ];
  cbn [thrown].

Lemma seed_loop_cons m defs st :
  seed_loop (m :: defs) st =
  if thrown (seed_step st m) then seed_step st m
  else seed_loop defs (seed_step st m).
Proof. reflexivity. Qed.

Lemma seed_loop_app l1 : forall l2 st,
  thrown st = false ->
  seed_loop (l1 ++ l2) st =
  if thrown (seed_loop l1 st) then seed_loop l1 st
  else seed_loop l2 (seed_loop l1 st).
Proof.
  induction l1 as [|m l1 IH]; intros l2 st Hst.
  - cbn [app seed_loop]. now rewrite Hst.
  - cbn [app]. rewrite !seed_loop_cons.
    destruct (thrown (seed_step st m)) eqn:E; [now rewrite E|].
    now apply IH.
Qed.

(** ** The loop as a whole *)

Lemma in_catalogue_cons u m defs :
  in_catalogue u (m :: defs) =
  String.eqb (monitor_url m) u || in_catalogue u defs.
Proof. reflexivity. Qed.

(** How many rows carry [u] once the loop is over: untouched if some row
    already did; otherwise at most one, and only if the catalogue names
    [u]; exactly that when the loop ran to its end. *)
Lemma url_count_seed_loop u defs : forall st,
  (has_url u (st_db st) = true ->
   url_count u (st_db (seed_loop defs st)) = url_count u (st_db st))
  /\ (has_url u (st_db st) = false ->
      url_count u (st_db (seed_loop defs st))
      <= if in_catalogue u defs then 1 else 0)
  /\ (has_url u (st_db st) = false ->
      thrown (seed_loop defs st) = false ->
      url_count u (st_db (seed_loop defs st))
      = if in_catalogue u defs then 1 else 0).
Proof.
  induction defs as [|m defs IH]; intros st.
  - cbn [seed_loop in_catalogue existsb].
    repeat split; trivial; intros H; intros; apply has_url_count in H; lia.
  - rewrite seed_loop_cons, in_catalogue_cons.
    seed_cases st m.
    + match goal with |- context [seed_loop defs ?s] =>
        destruct (IH s) as (H1 & H2 & H3) end.
      cbn [st_db] in H1, H2, H3.
      assert (has_url u (st_db st) = false ->
              String.eqb (monitor_url m) u = false) as Hne.
      { intros Hu. destruct (String.eqb (monitor_url m) u) eqn:Heq; trivial.
        apply String.eqb_eq in Heq. congruence. }
      split; [exact H1|]. split.
      * intros Hu. rewrite (Hne Hu). now apply H2.
      * intros Hu. rewrite (Hne Hu). now apply H3.
    + match goal with |- context [seed_loop defs ?s] =>
        destruct (IH s) as (H1 & H2 & H3) end.
      cbn [st_db] in H1, H2, H3.
      rewrite has_url_with_row, where_url_row_of_def in H1, H2, H3.
      rewrite url_count_with_row, where_url_row_of_def in H1.
      destruct (String.eqb (monitor_url m) u) eqn:Heq.
      * apply String.eqb_eq in Heq. subst u.
        rewrite orb_true_r in H1. specialize (H1 eq_refl).
        repeat split; intros Hu; try congruence; intros;
          apply has_url_count in Hu; cbn [orb]; lia.
      * rewrite orb_false_r in H1, H2, H3. rewrite Nat.add_0_r in H1.
        cbn [orb]. auto.
    + cbn [st_db]. repeat split; trivial; try discriminate.
      intros Hu. apply has_url_count in Hu. rewrite Hu. lia.
Qed.

Lemma seed_loop_present defs st d :
  thrown (seed_loop defs st) = false ->
  In d defs -> has_url (monitor_url d) (st_db (seed_loop defs st)) = true.
Proof.
  intros Hok Hin.
  destruct (has_url (monitor_url d) (st_db (seed_loop defs st))) eqn:E;
    [reflexivity|exfalso].
  apply has_url_count in E.
  destruct (url_count_seed_loop (monitor_url d) defs st) as (H1 & _ & H3).
  destruct (has_url (monitor_url d) (st_db st)) eqn:Hu.
  - rewrite (H1 eq_refl) in E. apply has_url_count in E. congruence.
  - rewrite (H3 eq_refl Hok) in E.
    assert (in_catalogue (monitor_url d) defs = true) as Hc.
    { apply existsb_exists. exists d. split; [assumption|apply String.eqb_refl]. }
    rewrite Hc in E. discriminate.
Qed.

(** Rows are only ever appended, and each appended row is the one the
    INSERT statement builds for some definition of the catalogue. *)
Lemma seed_loop_appends defs : forall st,
  exists added,
    monitor (st_db (seed_loop defs st)) = monitor (st_db st) ++ added
    /\ Forall (fun r => exists rowid d, In d defs /\ r = row_of_def rowid d)
              added
    /\ List.length added + inserted st = inserted (seed_loop defs st).
Proof.
  induction defs as [|m defs IH]; intros st.
  - exists []. cbn. rewrite app_nil_r. auto.
  - rewrite seed_loop_cons.
    assert (forall added,
              Forall (fun r => exists rowid d, In d defs
                                               /\ r = row_of_def rowid d) added ->
              Forall (fun r => exists rowid d, In d (m :: defs)
                                               /\ r = row_of_def rowid d) added)
      as Hweak.
    { intros added Hall. eapply Forall_impl; [|exact Hall].
      intros r (rowid & d & Hd & ->). exists rowid, d.
      split; [now right|reflexivity]. }
    seed_cases st m.
    + match goal with |- context [seed_loop defs ?s] =>
        destruct (IH s) as (added & Hrows & Hall & Hlen) end.
      cbn [st_db inserted] in Hrows, Hlen.
      exists added. auto.
    + match goal with |- context [seed_loop defs ?s] =>
        destruct (IH s) as (added & Hrows & Hall & Hlen) end.
      cbn [st_db inserted with_row monitor] in Hrows, Hlen.
      exists (row_of_def rowid m :: added).
      rewrite Hrows, <- app_assoc. split; [reflexivity|]. split.
      * constructor; [|auto].
        exists rowid, m. split; [now left|reflexivity].
      * cbn. lia.
    + exists []. cbn. rewrite app_nil_r. auto.
Qed.

(** When every definition already has its row, the loop only counts. *)
Lemma seed_loop_all_skipped defs : forall st,
  thrown st = false ->
  (forall d, In d defs -> has_url (monitor_url d) (st_db st) = true) ->
  seed_loop defs st =
  {| st_db := st_db st;
     inserted := inserted st;
     skipped := List.length defs + skipped st;
     st_out := st_out st ++ map (fun d => LogSkipped (Def.name d)) defs;
     thrown := false |}.
Proof.
  induction defs as [|m defs IH]; intros st Hst Hall.
  - cbn. rewrite app_nil_r. destruct st. cbn in Hst. now subst.
  - rewrite seed_loop_cons, seed_step_skip by (apply Hall; now left).
    cbn [thrown].
    rewrite IH; [|reflexivity|cbn [st_db]; intros d Hd; apply Hall; now right].
    cbn [st_db inserted skipped st_out map List.length].
    rewrite <- app_assoc, Nat.add_succ_r. reflexivity.
Qed.

(** With a row id left for every definition the loop runs to its end. *)
Lemma seed_loop_no_throw defs : forall st,
  thrown st = false ->
  rowids_left (List.length defs) (st_db st) ->
  thrown (seed_loop defs st) = false.
Proof.
  induction defs as [|m defs IH]; intros st Hst Hleft; [exact Hst|].
  rewrite seed_loop_cons. unfold rowids_left in Hleft.
  cbn [List.length] in Hleft.
  seed_cases st m.
  - apply IH; [reflexivity|]. unfold rowids_left. cbn [st_db]. lia.
  - apply IH; [reflexivity|]. unfold rowids_left. cbn [st_db].
    rewrite (rowid_mark_with_row _ rowid) by (trivial; reflexivity). lia.
  - apply next_rowid_none in Hid. lia.
Qed.

(** Once the row ids are used up the loop cannot change the storage. *)
Lemma seed_loop_exhausted defs : forall st,
  (MAX_ROWID <= rowid_mark (st_db st))%Z ->
  st_db (seed_loop defs st) = st_db st.
Proof.
  induction defs as [|m defs IH]; intros st Hfull; [reflexivity|].
  rewrite seed_loop_cons.
  seed_cases st m.
  - now rewrite IH.
  - apply next_rowid_value in Hid. lia.
  - reflexivity.
Qed.

(** The loop ends in the exception only with the row ids used up. *)
Lemma seed_loop_thrown_exhausted defs : forall st,
  thrown st = false ->
  thrown (seed_loop defs st) = true ->
  (MAX_ROWID <= rowid_mark (st_db (seed_loop defs st)))%Z.
Proof.
  induction defs as [|m defs IH]; intros st Hst; [cbn; congruence|].
  rewrite seed_loop_cons.
  seed_cases st m.
  - now apply IH.
  - now apply IH.
  - intros _. cbn [st_db]. now apply next_rowid_none.
Qed.

(** When no definition has a row yet, no two definitions share a url
    and a row id is left for each, the loop inserts every one of
    them. *)
Lemma seed_loop_all_inserted defs : forall st,
  NoDup (map monitor_url defs) ->
  (forall d, In d defs -> has_url (monitor_url d) (st_db st) = false) ->
  rowids_left (List.length defs) (st_db st) ->
  inserted (seed_loop defs st) = List.length defs + inserted st
  /\ skipped (seed_loop defs st) = skipped st
  /\ st_out (seed_loop defs st) =
     st_out st ++ map (fun d => LogInserted (Def.name d)) defs
  /\ count_monitors (st_db (seed_loop defs st)) =
     List.length defs + count_monitors (st_db st).
Proof.
  induction defs as [|m defs IH]; intros st Hnd Hnone Hleft.
  - cbn. rewrite app_nil_r. auto.
  - cbn [map] in Hnd. apply NoDup_cons_iff in Hnd as [Hm Hnd].
    unfold rowids_left in Hleft. cbn [List.length] in Hleft.
    destruct (next_rowid (st_db st)) as [rowid|] eqn:Hid;
      [|apply next_rowid_none in Hid; lia].
    rewrite seed_loop_cons,
      (seed_step_insert st m rowid (Hnone m (or_introl eq_refl)) Hid).
    cbn [thrown].
    match goal with |- context [seed_loop defs ?s] => set (st1 := s) end.
    destruct (IH st1 Hnd) as (Hi & Hs & Ho & Hc).
    { intros d Hd. subst st1. cbn [st_db].
      rewrite has_url_with_row, where_url_row_of_def, Hnone by now right.
      cbn [orb]. apply String.eqb_neq. intros Heq. apply Hm. rewrite Heq.
      now apply in_map. }
    { subst st1. unfold rowids_left. cbn [st_db].
      rewrite (rowid_mark_with_row _ rowid) by (trivial; reflexivity). lia. }
    rewrite Hi, Hs, Ho, Hc. subst st1.
    unfold count_monitors.
    cbn [st_db inserted skipped st_out with_row monitor map List.length].
    rewrite <- app_assoc, length_app. cbn. repeat split; lia.
Qed.

(** The lines of a run: one per definition taken up before the loop
    ended, in order, each naming its definition; the counters count
    them, and the table grows by the inserted ones. *)
Lemma seed_loop_accounting defs : forall st,
  exists lines,
    st_out (seed_loop defs st) = st_out st ++ lines
    /\ map line_name lines
       = map (fun d => Some (Def.name d)) (firstn (List.length lines) defs)
    /\ inserted (seed_loop defs st)
       = inserted st + count_lines is_inserted lines
    /\ skipped (seed_loop defs st)
       = skipped st + count_lines is_skipped lines
    /\ count_monitors (st_db (seed_loop defs st))
       = count_monitors (st_db st) + count_lines is_inserted lines
    /\ List.length lines <= List.length defs
    /\ (thrown (seed_loop defs st) = false ->
        List.length lines = List.length defs).
Proof.
  induction defs as [|m defs IH]; intros st.
  - exists []. cbn. rewrite app_nil_r, !Nat.add_0_r. auto 10.
  - rewrite seed_loop_cons. unfold count_monitors.
    seed_cases st m.
    + match goal with |- context [seed_loop defs ?s] =>
        destruct (IH s) as (lines & Ho & Hn & Hi & Hs & Hc & Hle & Hl) end.
      unfold count_monitors in Hc.
      cbn [st_out st_db inserted skipped] in Ho, Hi, Hs, Hc.
      exists (LogSkipped (Def.name m) :: lines).
      rewrite Ho, Hi, Hs, Hc, <- app_assoc. unfold count_lines.
      cbn. rewrite Hn. repeat split; try lia.
      intros Hok. now rewrite (Hl Hok).
    + match goal with |- context [seed_loop defs ?s] =>
        destruct (IH s) as (lines & Ho & Hn & Hi & Hs & Hc & Hle & Hl) end.
      unfold count_monitors in Hc.
      cbn [st_out st_db inserted skipped with_row monitor] in Ho, Hi, Hs, Hc.
      exists (LogInserted (Def.name m) :: lines).
      rewrite Ho, Hi, Hs, Hc, <- app_assoc, length_app. unfold count_lines.
      cbn. rewrite Hn. repeat split; try lia.
      intros Hok. now rewrite (Hl Hok).
    + exists []. cbn. rewrite app_nil_r, !Nat.add_0_r.
      repeat split; try lia; discriminate.
Qed.

Lemma count_lines_partition lines names :
  map line_name lines = map Some names ->
  count_lines is_inserted lines + count_lines is_skipped lines
  = List.length names.
Proof.
  unfold count_lines. revert names.
  induction lines as [|e lines IH]; intros [|n names] H; try discriminate.
  - reflexivity.
  - cbn [map] in H. injection H as He H. apply IH in H.
    destruct e; try discriminate; cbn in *; lia.
Qed.

(** ** The seed operation *)

Lemma seed_catalogue_storage defs db :
  fst (seed_catalogue defs db) = st_db (seed_run defs db).
Proof. reflexivity. Qed.

Lemma seed_catalogue_output defs db :
  snd (seed_catalogue defs db) =
  st_out (seed_run defs db)
    ++ if seed_throws defs db then []
       else [LogSummary (inserted (seed_run defs db))
                        (skipped (seed_run defs db))].
Proof. reflexivity. Qed.

Lemma seed_completes defs db :
  rowids_left (List.length defs) db -> seed_throws defs db = false.
Proof. intros H. now apply seed_loop_no_throw. Qed.

Lemma rowid_mark_clear db :
  (rowid_mark (fst (clearMonitors db)) <= rowid_mark db)%Z.
Proof.
  unfold clearMonitors, rowid_mark. cbn [fst monitor seq].
  pose proof (max_rowid_filter (fun r => negb (clear_matches r)) (monitor db)).
  lia.
Qed.

Lemma rowids_left_clear n db :
  rowids_left n db -> rowids_left n (fst (clearMonitors db)).
Proof.
  unfold rowids_left. pose proof (rowid_mark_clear db). lia.
Qed.

Lemma url_count_seed_catalogue u defs db :
  (has_url u db = true ->
   url_count u (fst (seed_catalogue defs db)) = url_count u db)
  /\ (has_url u db = false ->
      url_count u (fst (seed_catalogue defs db))
      <= if in_catalogue u defs then 1 else 0)
  /\ (has_url u db = false -> seed_throws defs db = false ->
      url_count u (fst (seed_catalogue defs db))
      = if in_catalogue u defs then 1 else 0).
Proof. apply (url_count_seed_loop u defs (mkSeedState db 0 0 [] false)). Qed.

Lemma seed_catalogue_appends defs db :
  exists added,
    monitor (fst (seed_catalogue defs db)) = monitor db ++ added
    /\ Forall (fun r => exists rowid d, In d defs /\ r = row_of_def rowid d)
              added
    /\ List.length added = inserted (seed_run defs db).
Proof.
  destruct (seed_loop_appends defs (mkSeedState db 0 0 [] false))
    as (added & Hrows & Hall & Hlen).
  exists added. cbn [inserted] in Hlen. rewrite Nat.add_0_r in Hlen. auto.
Qed.

(** A second run right after a run changes nothing in storage, whether
    the first run returned or threw. *)
Lemma seed_catalogue_storage_idempotent defs db :
  fst (seed_catalogue defs (fst (seed_catalogue defs db)))
  = fst (seed_catalogue defs db).
Proof.
  rewrite !seed_catalogue_storage. unfold seed_run at 1.
  destruct (thrown (seed_run defs db)) eqn:E.
  - apply (seed_loop_exhausted defs (mkSeedState _ 0 0 [] false)).
    cbn [st_db]. now apply seed_loop_thrown_exhausted.
  - rewrite seed_loop_all_skipped; trivial.
    intros d Hd. cbn [st_db]. now apply seed_loop_present.
Qed.

(** After a run that returned, a second run skips every definition. *)
Lemma seed_catalogue_idempotent defs db :
  seed_throws defs db = false ->
  seed_catalogue defs (fst (seed_catalogue defs db)) =
  (fst (seed_catalogue defs db),
   map (fun d => LogSkipped (Def.name d)) defs
     ++ [LogSummary 0 (List.length defs)])
  /\ seed_throws defs (fst (seed_catalogue defs db)) = false.
Proof.
  intros Hok.
  assert (seed_run defs (fst (seed_catalogue defs db)) =
          {| st_db := fst (seed_catalogue defs db);
             inserted := 0;
             skipped := List.length defs + 0;
             st_out := [] ++ map (fun d => LogSkipped (Def.name d)) defs;
             thrown := false |}) as Hrun.
  { unfold seed_run. rewrite seed_loop_all_skipped; trivial.
    intros d Hd. cbn [st_db]. now apply seed_loop_present. }
  unfold seed_catalogue at 1, seed_throws. rewrite Hrun.
  cbn [st_db st_out inserted skipped thrown app]. now rewrite Nat.add_0_r.
Qed.

(** ** The fixed catalogue *)

Lemma distinct_NoDup l : distinct l = true -> NoDup l.
Proof.
  induction l as [|x l IH]; intros H; [constructor|].
  cbn in H. apply andb_true_iff in H as [Hx Hl].
  constructor; [|now apply IH].
  intros Hin. apply negb_true_iff in Hx.
  assert (existsb (String.eqb x) l = true) as E; [|congruence].
  apply existsb_exists. exists x. split; [assumption|apply String.eqb_refl].
Qed.

Lemma monitors_paths_distinct : NoDup (map Def.path monitors).
Proof. apply distinct_NoDup. vm_compute. reflexivity. Qed.

Lemma append_inj (a b c : string) : (a ++ b = a ++ c)%string -> b = c.
Proof.
  induction a as [|x a IH]; cbn; intros H; [assumption|].
  injection H as H. now apply IH.
Qed.

Lemma monitor_url_inj d1 d2 :
  monitor_url d1 = monitor_url d2 -> Def.path d1 = Def.path d2.
Proof. apply append_inj. Qed.

Lemma NoDup_map_url defs :
  NoDup (map Def.path defs) -> NoDup (map monitor_url defs).
Proof.
  induction defs as [|d defs IH]; cbn; intros H; [constructor|].
  apply NoDup_cons_iff in H as [Hd H].
  constructor; [|now apply IH].
  intros Hin. apply in_map_iff in Hin as (d' & Hu & Hd').
  apply Hd. apply monitor_url_inj in Hu. rewrite <- Hu. now apply in_map.
Qed.

Lemma NoDup_map_injective {A B} (f : A -> B) l x y :
  NoDup (map f l) -> In x l -> In y l -> f x = f y -> x = y.
Proof.
  induction l as [|a l IH]; cbn; intros Hnd Hx Hy Hf; [contradiction|].
  apply NoDup_cons_iff in Hnd as [Ha Hnd].
  destruct Hx as [->|Hx], Hy as [->|Hy]; trivial.
  - exfalso. apply Ha. rewrite Hf. now apply in_map.
  - exfalso. apply Ha. rewrite <- Hf. now apply in_map.
  - now apply IH.
Qed.

(** ** Idempotence of the seed operation *)

(** C1.  A second [seedMonitors] run right after a first one never
    changes the storage the first run left, on whatever storage the
    first run started.  When the first run returned, the second prints
    a "skipped" line for every definition of the catalogue, in order,
    reports zero inserted and all skipped, and returns as well.  The
    first run returns whenever a row id is left for each of the 22
    definitions. *)
Theorem seedMonitors_idempotent (db : Database) :
  fst (seedMonitors (fst (seedMonitors db))) = fst (seedMonitors db)
  /\ (seedMonitors_throws db = false ->
      seedMonitors (fst (seedMonitors db)) =
      (fst (seedMonitors db),
       map (fun d => LogSkipped (Def.name d)) monitors
         ++ [LogSummary 0 (List.length monitors)])
      /\ seedMonitors_throws (fst (seedMonitors db)) = false)
  /\ (rowids_left (List.length monitors) db ->
      seedMonitors_throws db = false).
Proof.
  split; [apply seed_catalogue_storage_idempotent|].
  split; [apply seed_catalogue_idempotent|apply seed_completes].
Qed.

Lemma seedMonitors_idempotent_witness :
  rowids_left (List.length monitors) empty_db
  /\ seedMonitors_throws empty_db = false
  /\ seedMonitors_throws (fst (seedMonitors empty_db)) = false.
Proof.
  assert (rowids_left (List.length monitors) empty_db) as Hleft
    by (vm_compute; discriminate).
  pose proof (proj2 (proj2 (seedMonitors_idempotent empty_db)) Hleft) as Hok.
  split; [exact Hleft|]. split; [exact Hok|].
  exact (proj2 (proj1 (proj2 (seedMonitors_idempotent empty_db)) Hok)).
Defined.

(** ** Scope of the clear operation *)

Lemma clearMonitors_rows db :
  monitor (fst (clearMonitors db)) =
  filter (fun r => negb (begins_with_base_nocase r)) (monitor db).
Proof.
  unfold clearMonitors. cbn [fst monitor].
  apply filter_ext. intros r. now rewrite clear_matches_nocase.
Qed.

Lemma begins_with_base_weaken r :
  begins_with_base r = true -> begins_with_base_nocase r = true.
Proof.
  unfold begins_with_base, begins_with_base_nocase.
  destruct (Row.url r); [apply prefix_prefix_nocase|trivial].
Qed.

(** C2, as stated, fails: a stored row whose url does not begin
    byte-wise with the base URL is deleted by [clearMonitors], because
    LIKE folds ASCII case. *)
Lemma clear_deletes_beyond_bytewise_prefix :
  In upper_host_row (monitor upper_host_db)
  /\ begins_with_base upper_host_row = false
  /\ monitor (fst (clearMonitors upper_host_db)) = []
  /\ snd (clearMonitors upper_host_db) = [LogCleared 1].
Proof.
  split; [now left|]. split; [reflexivity|]. split; vm_compute; reflexivity.
Qed.

(** C2, amended.  [clearMonitors] keeps, in order and unchanged, exactly
    the rows whose url is NULL or does not begin with the base URL when
    ASCII letters are compared without regard to case, and deletes every
    other row; it reports the number of rows deleted.  In particular,
    every row whose url begins byte-wise with the base URL is deleted. *)
Theorem clearMonitors_scope (db : Database) :
  monitor (fst (clearMonitors db)) =
    filter (fun r => negb (begins_with_base_nocase r)) (monitor db)
  /\ snd (clearMonitors db) =
       [LogCleared (List.length (filter begins_with_base_nocase (monitor db)))]
  /\ (forall r, In r (monitor (fst (clearMonitors db))) <->
                In r (monitor db) /\ begins_with_base_nocase r = false)
  /\ (forall r, begins_with_base r = true ->
                ~ In r (monitor (fst (clearMonitors db)))).
Proof.
  pose proof (clearMonitors_rows db) as Hrows.
  assert (forall r, In r (monitor (fst (clearMonitors db))) <->
                    In r (monitor db) /\ begins_with_base_nocase r = false)
    as Hin.
  { intros r. rewrite Hrows, filter_In, negb_true_iff. reflexivity. }
  split; [exact Hrows|]. split; [|split; [exact Hin|]].
  - unfold clearMonitors. cbn [snd].
    now rewrite (filter_ext clear_matches begins_with_base_nocase
                   clear_matches_nocase).
  - intros r Hb Hr. apply Hin in Hr as [_ Hr].
    apply begins_with_base_weaken in Hb. congruence.
Qed.

(** ** At most one row per url *)

Lemma filter_filter_le {A} (p q : A -> bool) l :
  List.length (filter p (filter q l)) <= List.length (filter p l).
Proof.
  induction l as [|a l IH]; cbn; [lia|].
  destruct (q a), (p a) eqn:E; cbn; rewrite ?E; cbn; lia.
Qed.

Lemma url_count_seed_le u defs db :
  url_count u db <= 1 -> url_count u (fst (seed_catalogue defs db)) <= 1.
Proof.
  intros H.
  destruct (url_count_seed_catalogue u defs db) as (H1 & H2 & _).
  destruct (has_url u db).
  - now rewrite H1.
  - specialize (H2 eq_refl). destruct (in_catalogue u defs); lia.
Qed.

Lemma url_count_clear_le u db :
  url_count u (fst (clearMonitors db)) <= url_count u db.
Proof. apply filter_filter_le. Qed.

(** C3.  If at most one row carries a url [u], then after any sequence
    of seed and clear operations at most one row carries [u]: the
    existence check of the loop is what keeps a second row out, the
    INSERT itself would add one. *)
Theorem one_record_per_url (ops : list operation) (db : Database) (u : string) :
  url_count u db <= 1 -> url_count u (run_operations ops db) <= 1.
Proof.
  revert db. induction ops as [|o ops IH]; intros db H; [exact H|].
  cbn [run_operations fold_left]. apply IH.
  destruct o; cbn [run_operation].
  - now apply url_count_seed_le.
  - pose proof (url_count_clear_le u db). lia.
Qed.

Lemma one_record_per_url_witness :
  url_count "http://host.docker.internal:3000/ping" empty_db <= 1
  /\ url_count "http://host.docker.internal:3000/ping"
       (run_operations [Seed; Seed; Clear; Seed] empty_db) <= 1.
Proof.
  split; [vm_compute; lia|].
  apply (one_record_per_url [Seed; Seed; Clear; Seed] empty_db).
  vm_compute. lia.
Defined.

(** ** The natural key *)

(** C4.  Definitions with different paths have different urls; the
    WHERE clause of the existence query selects a row exactly when the
    row's url is byte-equal to the definition's url; and the loop skips
    a definition exactly when the storage holds such a row. *)
Theorem natural_key_correct (d1 d2 : Def.t) (r : Row.t) (st : SeedState) :
  (Def.path d1 <> Def.path d2 -> monitor_url d1 <> monitor_url d2)
  /\ (where_url (monitor_url d1) r = true <->
      Row.url r = Some (monitor_url d1))
  /\ (skipped (seed_step st d1) = S (skipped st) <->
      exists r', In r' (monitor (st_db st))
                 /\ Row.url r' = Some (monitor_url d1)).
Proof.
  split; [|split].
  - intros Hp Hu. apply Hp. now apply monitor_url_inj.
  - apply where_url_spec.
  - rewrite <- has_url_in.
    seed_cases st d1; cbn [skipped]; split; trivial; try discriminate;
      intros H; exfalso; now apply (n_Sn (skipped st)).
Qed.

Lemma natural_key_correct_witness :
  Def.path (plain "Ping" "/ping" "Simple ping/pong")
    <> Def.path (plain "Health Check" "/health" "Detailed health check response")
  /\ monitor_url (plain "Ping" "/ping" "Simple ping/pong")
       <> monitor_url (plain "Health Check" "/health"
                             "Detailed health check response").
Proof.
  split; [cbn; discriminate|].
  apply (proj1 (natural_key_correct
                  (plain "Ping" "/ping" "Simple ping/pong")
                  (plain "Health Check" "/health"
                         "Detailed health check response")
                  (row_of_def 1 (plain "Ping" "/ping" "Simple ping/pong"))
                  (mkSeedState empty_db 0 0 [] false))).
  cbn. discriminate.
Defined.

(** ** Summary on empty storage *)

Lemma main_unfold argv db :
  main argv (Some db) =
  let args := skipn 2 argv in
  let c1 := if shouldClear args then clearMonitors db else (db, []) in
  let c2 := if shouldForce args then clearMonitors (fst c1) else (fst c1, []) in
  let s := seedMonitors (fst c2) in
  if seedMonitors_throws (fst c2) then
    (1%Z, Some (fst s),
     [LogBanner] ++ snd c1 ++ snd c2 ++ snd s ++ [LogUncaught])
  else
    (0%Z, Some (fst s),
     [LogBanner] ++ snd c1 ++ snd c2 ++ snd s
       ++ [LogTotal (count_monitors (fst s)); LogComplete]).
Proof.
  unfold main. cbv zeta.
  destruct (if shouldClear (skipn 2 argv) then clearMonitors db else (db, []))
    as [db1 out1].
  cbn [fst snd].
  destruct (if shouldForce (skipn 2 argv) then clearMonitors db1 else (db1, []))
    as [db2 out2].
  cbn [fst snd].
  destruct (seedMonitors db2) as [db3 out3]. reflexivity.
Qed.

(** [main] in terms of the state in which it calls [seedMonitors]. *)
Lemma main_before_seed argv db :
  main argv (Some db) =
  let b := before_seed argv db in
  let s := seedMonitors (fst b) in
  if seedMonitors_throws (fst b) then
    (1%Z, Some (fst s), [LogBanner] ++ snd b ++ snd s ++ [LogUncaught])
  else
    (0%Z, Some (fst s),
     [LogBanner] ++ snd b ++ snd s
       ++ [LogTotal (count_monitors (fst s)); LogComplete]).
Proof.
  rewrite main_unfold. unfold before_seed. cbv zeta. cbn [fst snd].
  now rewrite <- !app_assoc.
Qed.

Lemma before_seed_rowids n argv db :
  rowids_left n db -> rowids_left n (fst (before_seed argv db)).
Proof.
  intros H. unfold before_seed. cbv zeta. cbn [fst].
  destruct (shouldClear (skipn 2 argv)), (shouldForce (skipn 2 argv));
    cbn [fst]; auto using rowids_left_clear.
Qed.

Lemma clear_keeps_empty db :
  monitor db = [] -> monitor (fst (clearMonitors db)) = [].
Proof. intros H. unfold clearMonitors. cbn [fst monitor]. now rewrite H. Qed.

Lemma before_seed_empty argv db :
  monitor db = [] -> monitor (fst (before_seed argv db)) = [].
Proof.
  intros H. unfold before_seed. cbv zeta. cbn [fst].
  destruct (shouldClear (skipn 2 argv)), (shouldForce (skipn 2 argv));
    cbn [fst]; auto using clear_keeps_empty.
Qed.

Lemma seed_catalogue_all_inserted defs db :
  NoDup (map Def.path defs) ->
  (forall d, In d defs -> has_url (monitor_url d) db = false) ->
  rowids_left (List.length defs) db ->
  snd (seed_catalogue defs db) =
    map (fun d => LogInserted (Def.name d)) defs
      ++ [LogSummary (List.length defs) 0]
  /\ count_monitors (fst (seed_catalogue defs db))
     = List.length defs + count_monitors db
  /\ seed_throws defs db = false.
Proof.
  intros Hnd Hnone Hleft.
  pose proof (seed_completes defs db Hleft) as Hok.
  destruct (seed_loop_all_inserted defs (mkSeedState db 0 0 [] false))
    as (Hi & Hs & Ho & Hc); trivial.
  - now apply NoDup_map_url.
  - rewrite seed_catalogue_output, seed_catalogue_storage, Hok.
    fold (seed_run defs db) in Hi, Hs, Ho, Hc. rewrite Hi, Hs, Ho, Hc.
    cbn [st_db inserted skipped st_out app]. now rewrite Nat.add_0_r.
Qed.

Lemma seed_catalogue_on_empty defs db :
  NoDup (map Def.path defs) ->
  monitor db = [] ->
  rowids_left (List.length defs) db ->
  snd (seed_catalogue defs db) =
    map (fun d => LogInserted (Def.name d)) defs
      ++ [LogSummary (List.length defs) 0]
  /\ count_monitors (fst (seed_catalogue defs db)) = List.length defs
  /\ seed_throws defs db = false.
Proof.
  intros Hnd Hempty Hleft.
  destruct (seed_catalogue_all_inserted defs db Hnd) as (Ho & Hc & Hok);
    trivial.
  - intros d _. unfold has_url. now rewrite Hempty.
  - rewrite Ho, Hc. unfold count_monitors. rewrite Hempty.
    cbn [List.length]. now rewrite Nat.add_0_r.
Qed.

(** C5.  On a table without rows, with a row id left for each of the 22
    definitions, [seedMonitors] returns after printing an "inserted"
    line for each definition and the summary "22 inserted, 0 skipped";
    the count query then returns 22, and [main] exits with status 0
    after printing that summary and that total, whatever the flags. *)
Theorem summary_on_empty (db : Database) (argv : list string) :
  monitor db = [] ->
  rowids_left (List.length monitors) db ->
  snd (seedMonitors db) =
    map (fun d => LogInserted (Def.name d)) monitors
      ++ [LogSummary (List.length monitors) 0]
  /\ count_monitors (fst (seedMonitors db)) = List.length monitors
  /\ seedMonitors_throws db = false
  /\ exit_status (main argv (Some db)) = 0%Z
  /\ (exists before,
        output (main argv (Some db)) =
        before ++ [LogSummary (List.length monitors) 0;
                   LogTotal (List.length monitors); LogComplete])
  /\ List.length monitors = 22.
Proof.
  intros Hempty Hleft.
  assert (forall d, monitor d = [] -> rowids_left (List.length monitors) d ->
            snd (seedMonitors d) =
              map (fun m => LogInserted (Def.name m)) monitors
                ++ [LogSummary (List.length monitors) 0]
            /\ count_monitors (fst (seedMonitors d)) = List.length monitors
            /\ seedMonitors_throws d = false)
    as Hseed.
  { intros d. apply seed_catalogue_on_empty, monitors_paths_distinct. }
  destruct (Hseed db Hempty Hleft) as (Hout & Hcount & Hok).
  split; [exact Hout|]. split; [exact Hcount|]. split; [exact Hok|].
  destruct (Hseed (fst (before_seed argv db))) as (Hout2 & Hcount2 & Hok2).
  { now apply before_seed_empty. }
  { now apply before_seed_rowids. }
  rewrite main_before_seed. cbv zeta. rewrite Hok2.
  unfold exit_status, output. cbn [fst snd].
  split; [reflexivity|]. split; [|reflexivity].
  rewrite Hout2, Hcount2.
  exists ([LogBanner] ++ snd (before_seed argv db)
            ++ map (fun d => LogInserted (Def.name d)) monitors).
  rewrite <- !app_assoc. reflexivity.
Qed.

Lemma summary_on_empty_witness :
  monitor empty_db = []
  /\ rowids_left (List.length monitors) empty_db
  /\ count_monitors (fst (seedMonitors empty_db)) = List.length monitors.
Proof.
  assert (rowids_left (List.length monitors) empty_db) as Hleft
    by (vm_compute; discriminate).
  split; [reflexivity|]. split; [exact Hleft|].
  apply (summary_on_empty empty_db (bun_argv []) eq_refl Hleft).
Defined.

(** ** Defaults of an inserted row *)

Lemma filter_length_one {A} (p : A -> bool) l :
  List.length (filter p l) = 1 -> exists a, filter p l = [a].
Proof.
  destruct (filter p l) as [|a [|b rest]]; cbn; intros H;
    try discriminate. now exists a.
Qed.

Lemma inserted_row_fields (defs : list Def.t) (db : Database) (d : Def.t) :
  NoDup (map Def.path defs) ->
  In d defs ->
  existingStmt_get db (monitor_url d) = None ->
  exists added,
    monitor (fst (seed_catalogue defs db)) = monitor db ++ added
    /\ (forall r, In r added -> Row.url r = Some (monitor_url d) ->
          Row.name r = Def.name d
          /\ (Def.timeout d = None -> Row.timeout r = DEFAULT_TIMEOUT)
          /\ (forall t, Def.timeout d = Some t -> Row.timeout r = t)
          /\ (Def.keyword d = None -> Row.keyword r = None)
          /\ (forall k, Def.keyword d = Some k -> Row.keyword r = Some k))
    /\ List.length (filter (where_url (monitor_url d)) added) <= 1
    /\ (seed_throws defs db = false ->
        exists r, filter (where_url (monitor_url d)) added = [r])
    /\ (rowids_left (List.length defs) db -> seed_throws defs db = false)
    /\ DEFAULT_TIMEOUT = 48%Z.
Proof.
  intros Hnd Hd Hnone. apply existing_none_iff in Hnone.
  destruct (seed_catalogue_appends defs db) as (added & Hrows & Hall & _).
  destruct (url_count_seed_catalogue (monitor_url d) defs db)
    as (_ & Hle & Heq).
  specialize (Hle Hnone). specialize (Heq Hnone).
  assert (in_catalogue (monitor_url d) defs = true) as Hcat.
  { apply existsb_exists. exists d. split; [assumption|apply String.eqb_refl]. }
  rewrite Hcat in Hle, Heq.
  assert (url_count (monitor_url d) (fst (seed_catalogue defs db))
          = List.length (filter (where_url (monitor_url d)) added)) as Hcount.
  { unfold url_count. rewrite Hrows, filter_app, length_app.
    apply has_url_count in Hnone. unfold url_count in Hnone.
    now rewrite Hnone. }
  rewrite Hcount in Hle, Heq.
  exists added. split; [exact Hrows|]. split; [|split; [exact Hle|split]].
  - intros r Hin Hurl. rewrite Forall_forall in Hall.
    destruct (Hall r Hin) as (rowid & d' & Hd' & ->).
    cbn [row_of_def insert_row Row.url] in Hurl.
    assert (Def.path d' = Def.path d) as Hpath
      by (apply monitor_url_inj; congruence).
    assert (d' = d) as ->.
    { exact (NoDup_map_injective Def.path defs d' d Hnd Hd' Hd Hpath). }
    cbn [row_of_def insert_row Row.name Row.timeout Row.keyword].
    unfold timeout_or_default.
    split; [reflexivity|].
    split; [intros ->; reflexivity|].
    split; [intros t ->; reflexivity|].
    split; trivial.
  - intros Hok. apply filter_length_one. now apply Heq.
  - split; [apply seed_completes|reflexivity].
Qed.

(** C6.  For a definition of the catalogue that has no row yet, every
    row [seedMonitors] appends under the definition's url carries the
    definition's name, its timeout or, when the definition has none,
    the default 48, and its keyword or, when the definition has none,
    NULL.  There is at most one such row, and exactly one when
    [seedMonitors] returns, which it does whenever a row id is left for
    each of the 22 definitions. *)
Theorem default_fallback (db : Database) (d : Def.t) :
  In d monitors ->
  existingStmt_get db (monitor_url d) = None ->
  exists added,
    monitor (fst (seedMonitors db)) = monitor db ++ added
    /\ (forall r, In r added -> Row.url r = Some (monitor_url d) ->
          Row.name r = Def.name d
          /\ (Def.timeout d = None -> Row.timeout r = DEFAULT_TIMEOUT)
          /\ (forall t, Def.timeout d = Some t -> Row.timeout r = t)
          /\ (Def.keyword d = None -> Row.keyword r = None)
          /\ (forall k, Def.keyword d = Some k -> Row.keyword r = Some k))
    /\ List.length (filter (where_url (monitor_url d)) added) <= 1
    /\ (seedMonitors_throws db = false ->
        exists r, filter (where_url (monitor_url d)) added = [r])
    /\ (rowids_left (List.length monitors) db ->
        seedMonitors_throws db = false)
    /\ DEFAULT_TIMEOUT = 48%Z.
Proof.
  exact (inserted_row_fields monitors db d monitors_paths_distinct).
Qed.

Lemma default_fallback_witness :
  In (plain "Ping" "/ping" "Simple ping/pong") monitors
  /\ existingStmt_get empty_db
       (monitor_url (plain "Ping" "/ping" "Simple ping/pong")) = None
  /\ rowids_left (List.length monitors) empty_db
  /\ exists added r,
       monitor (fst (seedMonitors empty_db)) = monitor empty_db ++ added
       /\ filter (where_url (monitor_url (plain "Ping" "/ping" "Simple ping/pong")))
                 added = [r]
       /\ Row.timeout r = 48%Z /\ Row.keyword r = None.
Proof.
  assert (In (plain "Ping" "/ping" "Simple ping/pong") monitors) as Hin.
  { unfold monitors. do 16 right. now left. }
  assert (rowids_left (List.length monitors) empty_db) as Hleft
    by (vm_compute; discriminate).
  split; [exact Hin|]. split; [reflexivity|]. split; [exact Hleft|].
  destruct (default_fallback empty_db (plain "Ping" "/ping" "Simple ping/pong")
              Hin eq_refl)
    as (added & Hrows & Hfields & _ & Hone & Hok & _).
  destruct (Hone (Hok Hleft)) as [r Hr].
  assert (In r added /\ where_url
            (monitor_url (plain "Ping" "/ping" "Simple ping/pong")) r = true)
    as [Hr1 Hr2] by (apply filter_In; rewrite Hr; now left).
  apply where_url_spec in Hr2.
  destruct (Hfields r Hr1 Hr2) as (_ & Ht & _ & Hk & _).
  exists added, r. repeat split; trivial.
  - now apply Ht.
  - now apply Hk.
Defined.

(** ** Run modes *)

Lemma filter_idem {A} (p : A -> bool) l : filter p (filter p l) = filter p l.
Proof.
  induction l as [|a l IH]; [reflexivity|].
  cbn. destruct (p a) eqn:E; cbn; rewrite ?E, IH; reflexivity.
Qed.

Lemma clear_idempotent db :
  fst (clearMonitors (fst (clearMonitors db))) = fst (clearMonitors db).
Proof.
  unfold clearMonitors. cbn [fst monitor seq]. now rewrite filter_idem.
Qed.

(** C7.  The storage [main] leaves behind depends on the flags only
    through "was a clear or a force flag given": without either it is
    the seeded storage, with either or both it is the cleared-then-seeded
    storage.  So force alone, clear alone and both together end in the
    same storage. *)
Theorem run_modes (argv : list string) (db : Database) :
  final_storage (main argv (Some db)) =
    Some (if shouldClear (skipn 2 argv) || shouldForce (skipn 2 argv)
          then fst (seedMonitors (fst (clearMonitors db)))
          else fst (seedMonitors db))
  /\ final_storage (main (bun_argv ["--clear"; "--force"]) (Some db)) =
     final_storage (main (bun_argv ["--clear"]) (Some db))
  /\ final_storage (main (bun_argv ["--force"]) (Some db)) =
     final_storage (main (bun_argv ["--clear"]) (Some db))
  /\ final_storage (main (bun_argv []) (Some db)) =
     Some (fst (seedMonitors db)).
Proof.
  assert (forall a, final_storage (main a (Some db)) =
            Some (if shouldClear (skipn 2 a) || shouldForce (skipn 2 a)
                  then fst (seedMonitors (fst (clearMonitors db)))
                  else fst (seedMonitors db))) as Hmode.
  { intros a. rewrite main_unfold.
    generalize seedMonitors_throws as throws.
    generalize seedMonitors as seed. intros seed throws.
    cbv zeta. unfold final_storage.
    destruct (shouldClear (skipn 2 a)), (shouldForce (skipn 2 a));
      cbn [fst orb]; rewrite ?clear_idempotent;
      match goal with |- context [if ?b then _ else _] => destruct b end;
      reflexivity. }
  split; [apply Hmode|].
  rewrite !Hmode.
  generalize (fst (seedMonitors (fst (clearMonitors db)))) as cleared_seeded.
  generalize (fst (seedMonitors db)) as seeded.
  intros seeded cleared_seeded. repeat split.
Qed.

(** ** Existing rows are left alone *)

(** C8.  Whatever the catalogue says, a seed run leaves every row that
    was in storage where it was and as it was, all columns included:
    the row found at a position before the run is the row found at that
    position after it.  This holds for [seedMonitors] in particular. *)
Theorem seed_never_mutates (defs : list Def.t) (db : Database)
    (i : nat) (r : Row.t) :
  nth_error (monitor db) i = Some r ->
  nth_error (monitor (fst (seed_catalogue defs db))) i = Some r
  /\ nth_error (monitor (fst (seedMonitors db))) i = Some r.
Proof.
  intros Hr.
  assert (forall l, nth_error (monitor (fst (seed_catalogue l db))) i = Some r)
    as Hany.
  { intros l. destruct (seed_catalogue_appends l db) as (added & -> & _).
    rewrite nth_error_app1; [exact Hr|].
    apply nth_error_Some. congruence. }
  split; [apply Hany|apply (Hany monitors)].
Qed.

Lemma seed_never_mutates_witness :
  nth_error (monitor {| monitor := [stale_ping_row]; seq := 3 |}) 0
    = Some stale_ping_row
  /\ nth_error
       (monitor (fst (seedMonitors {| monitor := [stale_ping_row]; seq := 3 |})))
       0 = Some stale_ping_row.
Proof.
  split; [reflexivity|].
  apply (seed_never_mutates monitors
           {| monitor := [stale_ping_row]; seq := 3 |} 0 stale_ping_row).
  reflexivity.
Defined.

(** ** Exit behaviour *)

(** The lines of a seed run and its summary. *)
Lemma seed_catalogue_lines defs db :
  exists lines,
    snd (seed_catalogue defs db)
    = lines ++ (if seed_throws defs db then []
                else [LogSummary (count_lines is_inserted lines)
                                 (count_lines is_skipped lines)])
    /\ map line_name lines
       = map (fun d => Some (Def.name d)) (firstn (List.length lines) defs)
    /\ count_monitors (fst (seed_catalogue defs db))
       = count_monitors db + count_lines is_inserted lines
    /\ List.length lines <= List.length defs
    /\ (seed_throws defs db = false ->
        List.length lines = List.length defs
        /\ count_lines is_inserted lines + count_lines is_skipped lines
           = List.length defs).
Proof.
  destruct (seed_loop_accounting defs (mkSeedState db 0 0 [] false))
    as (lines & Ho & Hn & Hi & Hs & Hc & Hle & Hl).
  fold (seed_run defs db) in Ho, Hi, Hs, Hc, Hl.
  cbn [st_out st_db inserted skipped app Nat.add] in Ho, Hi, Hs, Hc.
  exists lines. rewrite seed_catalogue_output, seed_catalogue_storage.
  rewrite Ho, Hi, Hs, Hc. repeat split; trivial.
  - now apply Hl.
  - specialize (Hl H). rewrite Hl, firstn_all in Hn.
    rewrite <- (length_map Def.name defs).
    apply count_lines_partition. now rewrite map_map.
Qed.

(** C9.  Without a storage file [main] exits with status 1, having
    printed only the banner and the "not found" message, and there is
    still no storage file.  With a storage file, when the INSERTs of
    the seed step all succeed, it exits with status 0 and its output is
    the banner, the lines of the clear steps, one line per definition,
    the summary counting those lines, the total count of the final
    storage and the completion message.  When an INSERT fails it exits
    with status 1 and prints neither summary nor total.  The INSERTs
    all succeed whenever a row id is left for each of the 22
    definitions. *)
Theorem exit_behaviour (argv : list string) :
  main argv None = (1%Z, None, [LogBanner; LogDbNotFound])
  /\ exit_status (main argv None) <> 0%Z
  /\ forall db,
       (seedMonitors_throws (fst (before_seed argv db)) = false ->
        exists lines,
          map line_name lines = map (fun d => Some (Def.name d)) monitors
          /\ count_lines is_inserted lines + count_lines is_skipped lines
             = List.length monitors
          /\ main argv (Some db) =
             (0%Z, Some (fst (seedMonitors (fst (before_seed argv db)))),
              [LogBanner] ++ snd (before_seed argv db) ++ lines
                ++ [LogSummary (count_lines is_inserted lines)
                               (count_lines is_skipped lines);
                    LogTotal (count_monitors
                                (fst (seedMonitors (fst (before_seed argv db)))));
                    LogComplete]))
       /\ (seedMonitors_throws (fst (before_seed argv db)) = true ->
           exists lines,
             map line_name lines
             = map (fun d => Some (Def.name d))
                   (firstn (List.length lines) monitors)
             /\ main argv (Some db) =
                (1%Z, Some (fst (seedMonitors (fst (before_seed argv db)))),
                 [LogBanner] ++ snd (before_seed argv db) ++ lines
                   ++ [LogUncaught]))
       /\ (rowids_left (List.length monitors) db ->
           seedMonitors_throws (fst (before_seed argv db)) = false).
Proof.
  split; [reflexivity|]. split; [discriminate|].
  intros db.
  destruct (seed_catalogue_lines monitors (fst (before_seed argv db)))
    as (lines & Ho & Hn & _ & _ & Hl).
  fold (seedMonitors (fst (before_seed argv db))) in Ho.
  fold (seedMonitors_throws (fst (before_seed argv db))) in Ho, Hl.
  split; [|split].
  - intros Hok. destruct (Hl Hok) as [Hlen Hsum].
    exists lines. rewrite Hlen, firstn_all in Hn.
    split; [exact Hn|]. split; [exact Hsum|].
    rewrite main_before_seed. cbv zeta. rewrite Hok in Ho |- *.
    rewrite Ho, <- !app_assoc. reflexivity.
  - intros Hthrown. exists lines. split; [exact Hn|].
    rewrite main_before_seed. cbv zeta. rewrite Hthrown in Ho |- *.
    rewrite Ho, <- !app_assoc. reflexivity.
  - intros Hleft. apply seed_completes. now apply before_seed_rowids.
Qed.

Lemma exit_behaviour_witness :
  rowids_left (List.length monitors) empty_db
  /\ seedMonitors_throws (fst (before_seed (bun_argv ["--clear"]) empty_db))
     = false
  /\ seedMonitors_throws (fst (before_seed (bun_argv []) (nearly_full_db 5)))
     = true
  /\ exists lines,
       main (bun_argv []) (Some (nearly_full_db 5)) =
       (1%Z,
        Some (fst (seedMonitors
                     (fst (before_seed (bun_argv []) (nearly_full_db 5))))),
        [LogBanner] ++ snd (before_seed (bun_argv []) (nearly_full_db 5))
          ++ lines ++ [LogUncaught]).
Proof.
  assert (rowids_left (List.length monitors) empty_db) as Hleft
    by (vm_compute; discriminate).
  assert (seedMonitors_throws
            (fst (before_seed (bun_argv []) (nearly_full_db 5))) = true)
    as Hthrown by (vm_compute; reflexivity).
  split; [exact Hleft|]. split; [|split; [exact Hthrown|]].
  - exact (proj2 (proj2 (proj2 (proj2 (exit_behaviour (bun_argv ["--clear"])))
                          empty_db)) Hleft).
  - destruct (proj1 (proj2 (proj2 (proj2 (exit_behaviour (bun_argv [])))
                              (nearly_full_db 5))) Hthrown)
      as (lines & _ & Hmain).
    exists lines. exact Hmain.
Defined.

(** ** Duplicate paths inside one run *)

Lemma duplicate_line (l1 l2 l3 : list Def.t) (d1 d2 : Def.t) (db : Database) :
  Def.path d1 = Def.path d2 ->
  (seed_throws (l1 ++ d1 :: l2) db = false ->
   nth_error (snd (seed_catalogue (l1 ++ d1 :: l2 ++ d2 :: l3) db))
             (List.length l1 + 1 + List.length l2)
   = Some (LogSkipped (Def.name d2)))
  /\ (seed_throws (l1 ++ d1 :: l2) db = true ->
      seed_throws (l1 ++ d1 :: l2 ++ d2 :: l3) db = true
      /\ nth_error (snd (seed_catalogue (l1 ++ d1 :: l2 ++ d2 :: l3) db))
                   (List.length l1 + 1 + List.length l2)
         = None).
Proof.
  intros Hpath.
  assert (monitor_url d1 = monitor_url d2) as Hurl
    by (unfold monitor_url; now rewrite Hpath).
  assert (l1 ++ d1 :: l2 ++ d2 :: l3 = (l1 ++ d1 :: l2) ++ d2 :: l3) as ->
    by (rewrite <- app_assoc; reflexivity).
  assert (List.length l1 + 1 + List.length l2 = List.length (l1 ++ d1 :: l2))
    as -> by (rewrite length_app; cbn; lia).
  generalize (l1 ++ d1 :: l2) (in_elt d1 l1 l2). intros A HinA.
  rewrite seed_catalogue_output. unfold seed_throws, seed_run.
  rewrite (seed_loop_app A (d2 :: l3)) by reflexivity.
  set (stA := seed_loop A (mkSeedState db 0 0 [] false)).
  destruct (seed_loop_accounting A (mkSeedState db 0 0 [] false))
    as (linesA & HoA & _ & _ & _ & _ & HleA & HlA).
  fold stA in HoA, HlA. cbn [st_out app] in HoA.
  split; intros HA; rewrite HA; cbv iota.
  - rewrite seed_loop_cons.
    assert (has_url (monitor_url d2) (st_db stA) = true) as Hseen
      by (rewrite <- Hurl; now apply seed_loop_present).
    rewrite (seed_step_skip stA d2 Hseen). cbn [thrown].
    match goal with |- context [seed_loop l3 ?s] => set (stB := s) end.
    destruct (seed_loop_accounting l3 stB) as (linesB & HoB & _).
    rewrite HoB. subst stB. cbn [st_out]. rewrite HoA, <- (HlA HA).
    rewrite <- !app_assoc. rewrite nth_error_app2 by lia.
    now rewrite Nat.sub_diag.
  - split; [exact HA|]. rewrite HA, HoA, app_nil_r.
    now apply nth_error_None.
Qed.

(** C10.  If a catalogue lists [d1] and, later, [d2] with the same
    path, a run adds at most one row for their url: afterwards that url
    is carried by at most one row, or by as many rows as carried it
    before the run.  The line printed at the position of [d2], if the
    run gets that far, is "skipped".  When the run returns, that line
    is printed and the url is carried by exactly one row, or by as many
    as before.  The run returns whenever a row id is left for each
    definition. *)
Theorem duplicate_path_inserted_once
    (l1 l2 l3 : list Def.t) (d1 d2 : Def.t) (db : Database) :
  Def.path d1 = Def.path d2 ->
  url_count (monitor_url d2)
    (fst (seed_catalogue (l1 ++ d1 :: l2 ++ d2 :: l3) db))
  <= Nat.max 1 (url_count (monitor_url d2) db)
  /\ (forall e,
        nth_error (snd (seed_catalogue (l1 ++ d1 :: l2 ++ d2 :: l3) db))
                  (List.length l1 + 1 + List.length l2) = Some e ->
        e = LogSkipped (Def.name d2))
  /\ (seed_throws (l1 ++ d1 :: l2 ++ d2 :: l3) db = false ->
      nth_error (snd (seed_catalogue (l1 ++ d1 :: l2 ++ d2 :: l3) db))
                (List.length l1 + 1 + List.length l2)
        = Some (LogSkipped (Def.name d2))
      /\ url_count (monitor_url d2)
           (fst (seed_catalogue (l1 ++ d1 :: l2 ++ d2 :: l3) db))
         = Nat.max 1 (url_count (monitor_url d2) db))
  /\ (rowids_left (List.length (l1 ++ d1 :: l2 ++ d2 :: l3)) db ->
      seed_throws (l1 ++ d1 :: l2 ++ d2 :: l3) db = false).
Proof.
  intros Hpath.
  destruct (duplicate_line l1 l2 l3 d1 d2 db Hpath) as [Hok Hthrown].
  destruct (url_count_seed_catalogue (monitor_url d2)
              (l1 ++ d1 :: l2 ++ d2 :: l3) db) as (H1 & H2 & H3).
  assert (in_catalogue (monitor_url d2) (l1 ++ d1 :: l2 ++ d2 :: l3) = true)
    as Hcat.
  { apply existsb_exists. exists d2. split; [|apply String.eqb_refl].
    apply in_or_app. right. right. apply in_or_app. right. now left. }
  rewrite Hcat in H2, H3.
  assert (has_url (monitor_url d2) db = true ->
          Nat.max 1 (url_count (monitor_url d2) db)
          = url_count (monitor_url d2) db) as Hmax.
  { intros E. destruct (url_count (monitor_url d2) db) eqn:Hc; [|lia].
    apply has_url_count in Hc. congruence. }
  split; [|split; [|split]].
  - destruct (has_url (monitor_url d2) db) eqn:E.
    + rewrite (H1 eq_refl). lia.
    + specialize (H2 eq_refl). lia.
  - intros e He.
    destruct (seed_throws (l1 ++ d1 :: l2) db) eqn:EA.
    + destruct (Hthrown eq_refl) as [_ Hnone]. congruence.
    + rewrite (Hok eq_refl) in He. congruence.
  - intros Hret. split.
    + destruct (seed_throws (l1 ++ d1 :: l2) db) eqn:EA.
      * destruct (Hthrown eq_refl) as [Ht _]. congruence.
      * now apply Hok.
    + destruct (has_url (monitor_url d2) db) eqn:E.
      * now rewrite (H1 eq_refl), Hmax.
      * rewrite (H3 eq_refl Hret). apply has_url_count in E. now rewrite E.
  - apply seed_completes.
Qed.

Lemma duplicate_path_inserted_once_witness :
  Def.path (plain "Ping" "/ping" "Simple ping/pong")
    = Def.path (again (plain "Ping" "/ping" "Simple ping/pong"))
  /\ rowids_left
       (List.length ([] ++ plain "Ping" "/ping" "Simple ping/pong"
                        :: [] ++ again (plain "Ping" "/ping" "Simple ping/pong")
                        :: []))
       empty_db
  /\ nth_error
       (snd (seed_catalogue
               ([] ++ plain "Ping" "/ping" "Simple ping/pong"
                   :: [] ++ again (plain "Ping" "/ping" "Simple ping/pong")
                   :: [])
               empty_db))
       (List.length (@nil Def.t) + 1 + List.length (@nil Def.t))
     = Some (LogSkipped "Ping again").
Proof.
  assert (rowids_left
            (List.length ([] ++ plain "Ping" "/ping" "Simple ping/pong"
                             :: [] ++ again (plain "Ping" "/ping"
                                                   "Simple ping/pong")
                             :: []))
            empty_db) as Hleft by (vm_compute; discriminate).
  split; [reflexivity|]. split; [exact Hleft|].
  destruct (duplicate_path_inserted_once [] [] []
              (plain "Ping" "/ping" "Simple ping/pong")
              (again (plain "Ping" "/ping" "Simple ping/pong")) empty_db
              eq_refl)
    as (_ & _ & Hret & Hok).
  exact (proj1 (Hret (Hok Hleft))).
Defined.

(** * Further properties of the script *)

(** ** Accounting of a seed run *)

(** X1.  A seed run prints one line per definition it takes up, in
    catalogue order, each naming its definition and saying inserted or
    skipped, and the table grows by the number of inserted lines.  When
    the run returns, every definition has its line and a summary
    follows whose two numbers are the numbers of those lines; they add
    up to the size of the catalogue.  When the run throws, no summary
    is printed.  The run returns whenever a row id is left for each
    definition. *)
Theorem seed_accounting (defs : list Def.t) (db : Database) :
  exists lines,
    snd (seed_catalogue defs db)
    = lines ++ (if seed_throws defs db then []
                else [LogSummary (count_lines is_inserted lines)
                                 (count_lines is_skipped lines)])
    /\ map line_name lines
       = map (fun d => Some (Def.name d)) (firstn (List.length lines) defs)
    /\ count_monitors (fst (seed_catalogue defs db))
       = count_monitors db + count_lines is_inserted lines
    /\ List.length lines <= List.length defs
    /\ (seed_throws defs db = false ->
        List.length lines = List.length defs
        /\ count_lines is_inserted lines + count_lines is_skipped lines
           = List.length defs)
    /\ (rowids_left (List.length defs) db -> seed_throws defs db = false).
Proof.
  destruct (seed_catalogue_lines defs db) as (lines & Ho & Hn & Hc & Hle & Hl).
  exists lines. repeat split; trivial; try apply Hl; trivial.
  apply seed_completes.
Qed.

Lemma seed_accounting_witness :
  rowids_left (List.length monitors) empty_db
  /\ seed_throws monitors empty_db = false.
Proof.
  assert (rowids_left (List.length monitors) empty_db) as Hleft
    by (vm_compute; discriminate).
  split; [exact Hleft|].
  destruct (seed_accounting monitors empty_db) as (lines & _ & _ & _ & _ & _ & Hok).
  exact (Hok Hleft).
Defined.

(** ** What a seed run guarantees and what it adds *)

(** X2.  After a seed run that returned, every definition of the
    catalogue has a row with its url, whatever the storage held before;
    and the run returns whenever a row id is left for each
    definition. *)
Theorem seed_complete (defs : list Def.t) (db : Database) (d : Def.t) :
  In d defs ->
  (seed_throws defs db = false ->
   exists r, In r (monitor (fst (seed_catalogue defs db)))
             /\ Row.url r = Some (monitor_url d))
  /\ (rowids_left (List.length defs) db -> seed_throws defs db = false).
Proof.
  intros Hd. split; [|apply seed_completes].
  intros Hok. apply has_url_in. rewrite seed_catalogue_storage.
  now apply seed_loop_present.
Qed.

Lemma seed_complete_witness :
  In (plain "Ping" "/ping" "Simple ping/pong")
     [plain "Ping" "/ping" "Simple ping/pong"]
  /\ rowids_left (List.length [plain "Ping" "/ping" "Simple ping/pong"])
       empty_db
  /\ exists r,
       In r (monitor (fst (seed_catalogue
                             [plain "Ping" "/ping" "Simple ping/pong"]
                             empty_db)))
       /\ Row.url r = Some "http://host.docker.internal:3000/ping".
Proof.
  assert (rowids_left (List.length [plain "Ping" "/ping" "Simple ping/pong"])
            empty_db) as Hleft by (vm_compute; discriminate).
  split; [now left|]. split; [exact Hleft|].
  destruct (seed_complete [plain "Ping" "/ping" "Simple ping/pong"] empty_db
              (plain "Ping" "/ping" "Simple ping/pong") (or_introl eq_refl))
    as [Hrow Hok].
  exact (Hrow (Hok Hleft)).
Defined.

Lemma prefix_app a b : String.prefix a (a ++ b)%string = true.
Proof.
  induction a as [|x a IH]; cbn; [now destruct b|].
  destruct (ascii_dec x x); [exact IH|congruence].
Qed.

Lemma row_of_def_under_base rowid d :
  begins_with_base (row_of_def rowid d) = true.
Proof. unfold begins_with_base. cbn [row_of_def insert_row Row.url].
  apply prefix_app. Qed.

Lemma row_of_def_cleared rowid d : clear_matches (row_of_def rowid d) = true.
Proof.
  rewrite clear_matches_nocase.
  apply begins_with_base_weaken, row_of_def_under_base.
Qed.

(** X3.  The rows a seed run adds come after the rows that were there;
    each is the INSERT's row for a definition of the catalogue whose url
    no row carried before the run, so it has the fixed column values and
    a url under the base URL. *)
Theorem seed_adds_only_missing (defs : list Def.t) (db : Database) :
  exists added,
    monitor (fst (seed_catalogue defs db)) = monitor db ++ added
    /\ forall r, In r added ->
         (exists d, In d defs
                    /\ r = row_of_def (Row.id r) d
                    /\ existingStmt_get db (monitor_url d) = None)
         /\ Row.active r = 1%Z
         /\ Row.user_id r = DEFAULT_USER_ID
         /\ Row.interval r = 60%Z
         /\ Row.type r = "http"
         /\ Row.method r = "GET"
         /\ begins_with_base r = true.
Proof.
  destruct (seed_catalogue_appends defs db) as (added & Hrows & Hall & _).
  exists added. split; [exact Hrows|].
  intros r Hr. rewrite Forall_forall in Hall.
  destruct (Hall r Hr) as (rowid & d & Hd & ->).
  split; [|repeat split; apply row_of_def_under_base].
  exists d. split; [exact Hd|]. split; [reflexivity|].
  apply existing_none_iff.
  destruct (has_url (monitor_url d) db) eqn:E; [exfalso|reflexivity].
  pose proof (proj1 (url_count_seed_catalogue (monitor_url d) defs db) E)
    as Hc.
  unfold url_count in Hc. rewrite Hrows, filter_app, length_app in Hc.
  assert (In (row_of_def rowid d) (filter (where_url (monitor_url d)) added))
    as Hin.
  { apply filter_In. split; [exact Hr|]. apply String.eqb_refl. }
  destruct (filter (where_url (monitor_url d)) added); [contradiction|].
  cbn in Hc. lia.
Qed.

(** ** The clear operation *)

Lemma filter_partition_length {A} (p : A -> bool) l :
  List.length (filter p l) + List.length (filter (fun a => negb (p a)) l)
  = List.length l.
Proof.
  induction l as [|a l IH]; [reflexivity|].
  cbn. destruct (p a); cbn; lia.
Qed.

Lemma filter_none {A} (p : A -> bool) l :
  filter p (filter (fun a => negb (p a)) l) = [].
Proof.
  induction l as [|a l IH]; [reflexivity|].
  cbn. destruct (p a) eqn:E; cbn; rewrite ?E; exact IH.
Qed.

(** X4.  The number [clearMonitors] reports and the number of rows it
    leaves add up to the number of rows it found. *)
Theorem clear_accounting (db : Database) :
  exists changes,
    snd (clearMonitors db) = [LogCleared changes]
    /\ changes + count_monitors (fst (clearMonitors db)) = count_monitors db.
Proof.
  exists (List.length (filter clear_matches (monitor db))).
  split; [reflexivity|].
  unfold clearMonitors, count_monitors. cbn [fst monitor].
  apply filter_partition_length.
Qed.

(** X5.  Clearing right after a clear changes nothing and reports zero
    deleted rows. *)
Theorem clear_twice (db : Database) :
  clearMonitors (fst (clearMonitors db))
  = (fst (clearMonitors db), [LogCleared 0]).
Proof.
  unfold clearMonitors. cbn [fst monitor seq].
  now rewrite filter_idem, filter_none.
Qed.

Lemma filter_all_out {A} (p : A -> bool) l :
  (forall a, In a l -> p a = false) -> filter p l = [].
Proof.
  induction l as [|a l IH]; intros H; [reflexivity|].
  cbn. rewrite (H a) by now left. apply IH. intros b Hb. apply H. now right.
Qed.

Lemma filter_all_in {A} (p : A -> bool) l :
  (forall a, In a l -> p a = true) -> filter p l = l.
Proof.
  induction l as [|a l IH]; intros H; [reflexivity|].
  cbn. rewrite (H a) by now left. f_equal. apply IH.
  intros b Hb. apply H. now right.
Qed.

Lemma seed_added_cleared defs db :
  exists added,
    monitor (fst (seed_catalogue defs db)) = monitor db ++ added
    /\ (forall r, In r added -> clear_matches r = true)
    /\ List.length added = inserted (seed_run defs db).
Proof.
  destruct (seed_catalogue_appends defs db) as (added & Hrows & Hall & Hlen).
  exists added. split; [exact Hrows|]. split; [|exact Hlen].
  intros r Hr. rewrite Forall_forall in Hall.
  destruct (Hall r Hr) as (rowid & d & _ & ->). apply row_of_def_cleared.
Qed.

(** X6.  A clear undoes a seed, also one that threw: clearing after a
    seed run leaves the same rows as clearing without it, and reports
    the rows a clear would have deleted plus the rows the seed run
    added; when the seed run printed a summary, its inserted number is
    the number of rows added. *)
Theorem clear_undoes_seed (defs : list Def.t) (db : Database) :
  exists added n,
    monitor (fst (seed_catalogue defs db)) = monitor db ++ added
    /\ snd (clearMonitors db) = [LogCleared n]
    /\ snd (clearMonitors (fst (seed_catalogue defs db)))
       = [LogCleared (n + List.length added)]
    /\ monitor (fst (clearMonitors (fst (seed_catalogue defs db))))
       = monitor (fst (clearMonitors db))
    /\ (forall before ins skp,
          snd (seed_catalogue defs db) = before ++ [LogSummary ins skp] ->
          ins = List.length added).
Proof.
  destruct (seed_added_cleared defs db) as (added & Hrows & Hall & Hlen).
  exists added, (List.length (filter clear_matches (monitor db))).
  split; [exact Hrows|]. split; [reflexivity|].
  unfold clearMonitors at 1 2. cbn [fst snd monitor].
  rewrite Hrows, !filter_app.
  rewrite (filter_all_in clear_matches added Hall).
  rewrite (filter_all_out (fun r => negb (clear_matches r)) added)
    by (intros r Hr; now rewrite (Hall r Hr)).
  rewrite length_app, app_nil_r.
  split; [reflexivity|]. split; [reflexivity|].
  intros before ins skp Hout. rewrite seed_catalogue_output in Hout.
  destruct (seed_throws defs db).
  - rewrite app_nil_r in Hout.
    destruct (seed_loop_accounting defs (mkSeedState db 0 0 [] false))
      as (lines & Ho & Hn & _).
    fold (seed_run defs db) in Ho. cbn [st_out app] in Ho.
    rewrite Ho in Hout. exfalso.
    assert (In (LogSummary ins skp) lines) as Hin
      by (rewrite Hout; apply in_or_app; right; now left).
    apply (in_map line_name) in Hin. rewrite Hn in Hin.
    apply in_map_iff in Hin as (d & Hd & _). discriminate.
  - apply app_inj_tail in Hout as [_ Hout]. injection Hout as <- _.
    now symmetry.
Qed.

Lemma cleared_has_no_seed_url db p :
  has_url (MOCK_SERVER_BASE ++ p)%string (fst (clearMonitors db)) = false.
Proof.
  destruct (has_url (MOCK_SERVER_BASE ++ p)%string (fst (clearMonitors db)))
    eqn:E; [exfalso|reflexivity].
  apply has_url_in in E as (r & Hr & Hu).
  rewrite clearMonitors_rows in Hr. apply filter_In in Hr as [_ Hr].
  apply negb_true_iff in Hr.
  assert (begins_with_base r = true) as Hb.
  { unfold begins_with_base. rewrite Hu. apply prefix_app. }
  apply begins_with_base_weaken in Hb. congruence.
Qed.

(** X7.  Seeding a freshly cleared storage never skips: for a catalogue
    with pairwise different paths, and a row id left for each
    definition, the seed run returns with every definition inserted,
    the summary says so, and the table holds the rows the clear left
    plus one per definition.  This is the case of the catalogue of the
    script. *)
Theorem seed_after_clear_inserts_all (defs : list Def.t) (db : Database) :
  NoDup (map Def.path defs) ->
  rowids_left (List.length defs) db ->
  snd (seed_catalogue defs (fst (clearMonitors db)))
  = map (fun d => LogInserted (Def.name d)) defs
      ++ [LogSummary (List.length defs) 0]
  /\ count_monitors (fst (seed_catalogue defs (fst (clearMonitors db))))
     = List.length defs + count_monitors (fst (clearMonitors db))
  /\ seed_throws defs (fst (clearMonitors db)) = false.
Proof.
  intros Hnd Hleft. apply seed_catalogue_all_inserted; trivial.
  - intros d _. apply cleared_has_no_seed_url.
  - now apply rowids_left_clear.
Qed.

Lemma seed_after_clear_inserts_all_witness :
  NoDup (map Def.path monitors)
  /\ rowids_left (List.length monitors) empty_db
  /\ count_monitors (fst (seed_catalogue monitors
                            (fst (clearMonitors empty_db))))
     = List.length monitors
       + count_monitors (fst (clearMonitors empty_db)).
Proof.
  assert (rowids_left (List.length monitors) empty_db) as Hleft
    by (vm_compute; discriminate).
  split; [exact monitors_paths_distinct|]. split; [exact Hleft|].
  exact (proj1 (proj2 (seed_after_clear_inserts_all monitors empty_db
                         monitors_paths_distinct Hleft))).
Defined.

(** ** The whole run *)

Lemma includes_filter (p : string -> bool) args x :
  p x = true -> includes (filter p args) x = includes args x.
Proof.
  intros Hp. unfold includes.
  induction args as [|a args IH]; [reflexivity|].
  cbn [filter]. destruct (p a) eqn:E; cbn [existsb]; rewrite IH; trivial.
  destruct (String.eqb x a) eqn:Hx; [|reflexivity].
  apply String.eqb_eq in Hx. congruence.
Qed.

(** X8.  Arguments other than [--clear], [-c], [--force] and [-f] are
    ignored: a run behaves, in exit status, storage and output, like the
    run with only the recognised arguments on the command line. *)
Theorem unrecognised_arguments_ignored
    (argv : list string) (file : option Database) :
  main argv file = main (bun_argv (filter recognised (skipn 2 argv))) file.
Proof.
  destruct file as [db|]; [|reflexivity].
  rewrite !main_unfold.
  change (skipn 2 (bun_argv (filter recognised (skipn 2 argv))))
    with (filter recognised (skipn 2 argv)).
  unfold shouldClear, shouldForce.
  rewrite !includes_filter by reflexivity. reflexivity.
Qed.

Lemma foreign_after_seed defs db :
  filter foreign (monitor (fst (seed_catalogue defs db)))
  = filter foreign (monitor db).
Proof.
  destruct (seed_added_cleared defs db) as (added & Hrows & Hall & _).
  rewrite Hrows, filter_app, (filter_all_out foreign added).
  - apply app_nil_r.
  - intros r Hr. unfold foreign. now rewrite (Hall r Hr).
Qed.

Lemma foreign_after_clear db :
  filter foreign (monitor (fst (clearMonitors db)))
  = filter foreign (monitor db).
Proof. unfold clearMonitors. cbn [fst monitor]. apply filter_idem. Qed.

(** X9.  Whatever the flags, a run leaves the rows that the DELETE of
    [clearMonitors] does not select exactly as they were: the same
    rows, in the same order, with the same columns. *)
Theorem run_keeps_foreign_rows (argv : list string) (db : Database) :
  exists db',
    final_storage (main argv (Some db)) = Some db'
    /\ filter foreign (monitor db') = filter foreign (monitor db).
Proof.
  rewrite main_unfold. cbv zeta.
  match goal with |- context [seedMonitors ?d] =>
    exists (fst (seedMonitors d)) end.
  split.
  - unfold final_storage.
    match goal with |- context [if seedMonitors_throws ?d then _ else _] =>
      destruct (seedMonitors_throws d) end; reflexivity.
  - unfold seedMonitors. rewrite foreign_after_seed.
    destruct (shouldClear (skipn 2 argv)), (shouldForce (skipn 2 argv));
      cbn [fst]; rewrite ?foreign_after_clear; reflexivity.
Qed.

(** ** The two prepared statements together *)

Lemma find_app_hit {A} (p : A -> bool) l l' a :
  find p l = Some a -> find p (l ++ l') = Some a.
Proof.
  induction l as [|b l IH]; cbn; [discriminate|].
  destruct (p b); [trivial|exact IH].
Qed.

Lemma find_app_miss {A} (p : A -> bool) l l' :
  find p l = None -> find p (l ++ l') = find p l'.
Proof.
  induction l as [|b l IH]; cbn; [trivial|].
  destruct (p b); [discriminate|exact IH].
Qed.

(** X10.  Lookup after insert.  While a row id is left the INSERT
    succeeds, and afterwards the existence query for the inserted url
    finds a row, a row that the query found before is still the one it
    finds, and the query for any other url answers as before.  With the
    row ids used up the INSERT fails and the storage stays as it
    was. *)
Theorem lookup_after_insert (db : Database) (n : string) (uid : Z)
    (u : string) (t : Z) (d : string) (k : option string) (v : string) :
  ((rowid_mark db < MAX_ROWID)%Z ->
   exists db',
     insertStmt_run db n uid u t d k = Some db'
     /\ existingStmt_get db' u <> None
     /\ (forall rowid, existingStmt_get db v = Some rowid ->
           existingStmt_get db' v = Some rowid)
     /\ (v <> u -> existingStmt_get db' v = existingStmt_get db v))
  /\ ((MAX_ROWID <= rowid_mark db)%Z ->
      insertStmt_run db n uid u t d k = None).
Proof.
  split.
  - intros Hleft. apply next_rowid_some in Hleft.
    rewrite (insertStmt_run_some _ _ _ _ _ _ _ _ Hleft).
    eexists. split; [reflexivity|]. split; [|split].
    + intros H. apply existing_none_iff in H.
      rewrite has_url_with_row, where_url_insert_row in H.
      rewrite String.eqb_refl, orb_true_r in H. discriminate.
    + unfold existingStmt_get, with_row. cbn [monitor]. intros rowid H.
      destruct (find (where_url v) (monitor db)) as [r|] eqn:E;
        [|discriminate].
      now rewrite (find_app_hit _ _ _ _ E).
    + intros Hv. unfold existingStmt_get, with_row. cbn [monitor].
      destruct (find (where_url v) (monitor db)) as [r|] eqn:E.
      * now rewrite (find_app_hit _ _ _ _ E).
      * rewrite (find_app_miss _ _ _ E). cbn [find].
        rewrite where_url_insert_row.
        destruct (String.eqb u v) eqn:Huv; [|reflexivity].
        apply String.eqb_eq in Huv. congruence.
  - intros Hfull. apply insertStmt_run_none. now apply next_rowid_none.
Qed.

Lemma lookup_after_insert_witness :
  (rowid_mark empty_db < MAX_ROWID)%Z
  /\ (MAX_ROWID <= rowid_mark (nearly_full_db 0))%Z
  /\ (exists db',
        insertStmt_run empty_db "Health Check" 1
          "http://host.docker.internal:3000/health" 48 "check" None
        = Some db'
        /\ existingStmt_get db' "http://host.docker.internal:3000/health"
           <> None)
  /\ insertStmt_run (nearly_full_db 0) "Health Check" 1
       "http://host.docker.internal:3000/health" 48 "check" None = None.
Proof.
  assert ((rowid_mark empty_db < MAX_ROWID)%Z) as Hleft by reflexivity.
  assert ((MAX_ROWID <= rowid_mark (nearly_full_db 0))%Z) as Hfull
    by (vm_compute; discriminate).
  split; [exact Hleft|]. split; [exact Hfull|]. split.
  - destruct (proj1 (lookup_after_insert empty_db "Health Check" 1
                       "http://host.docker.internal:3000/health" 48 "check"
                       None "http://host.docker.internal:3000/ping") Hleft)
      as (db' & Hins & Hfound & _).
    exists db'. split; assumption.
  - exact (proj2 (lookup_after_insert (nearly_full_db 0) "Health Check" 1
                    "http://host.docker.internal:3000/health" 48 "check"
                    None "http://host.docker.internal:3000/ping") Hfull).
Defined.

(** ** The banner *)

Lemma lastIndexOf_from_absent c s : forall i found,
  has_char c s = false -> lastIndexOf_from c s i found = found.
Proof.
  induction s as [|a s IH]; intros i found H; [reflexivity|].
  cbn in H. apply orb_false_iff in H as [Ha Hs].
  cbn. rewrite Ha. now apply IH.
Qed.

Lemma lastIndexOf_from_app c a b : forall i found,
  lastIndexOf_from c (a ++ b)%string i found
  = lastIndexOf_from c b (i + Z.of_nat (String.length a))%Z
      (lastIndexOf_from c a i found).
Proof.
  induction a as [|x a IH]; intros i found.
  - cbn. now rewrite Z.add_0_r.
  - cbn [append lastIndexOf_from String.length]. rewrite IH.
    f_equal. lia.
Qed.

Lemma string_drop_app a b :
  string_drop (String.length a) (a ++ b)%string = b.
Proof. induction a as [|x a IH]; [reflexivity|exact IH]. Qed.

Lemma length_spaces n : String.length (spaces n) = n.
Proof. induction n as [|n IH]; cbn; congruence. Qed.

Lemma string_length_app a b :
  String.length (a ++ b)%string = String.length a + String.length b.
Proof. induction a as [|x a IH]; cbn; congruence. Qed.

Lemma lastIndexOf_separator dir file :
  has_char "/" file = false ->
  lastIndexOf "/" (dir ++ String "/" file)%string
  = Z.of_nat (String.length dir).
Proof.
  intros H. unfold lastIndexOf. rewrite lastIndexOf_from_app.
  cbn [lastIndexOf_from]. rewrite Ascii.eqb_refl.
  now apply lastIndexOf_from_absent.
Qed.

(** X11.  The banner shows what follows the last slash of the database
    path, and the whole path when it has no slash, padded with spaces to
    47 characters and never cut: a longer name makes the line longer.
    For a path ending in /data/kuma.db it shows kuma.db and 40 spaces. *)
Theorem banner_database_field_spec (dir file : string) :
  has_char "/" file = false ->
  banner_database_field (dir ++ String "/" file) = padEnd 47 file
  /\ banner_database_field file = padEnd 47 file
  /\ String.length (padEnd 47 file) = Nat.max 47 (String.length file)
  /\ banner_database_field (dir ++ "/data/kuma.db")
     = ("kuma.db" ++ spaces 40)%string.
Proof.
  intros H.
  assert (banner_database_field (dir ++ String "/" file) = padEnd 47 file)
    as Hbase.
  { unfold banner_database_field, substring_from.
    rewrite (lastIndexOf_separator dir file H).
    replace (Z.to_nat (Z.of_nat (String.length dir) + 1))
      with (String.length (dir ++ "/")%string)
      by (rewrite string_length_app; cbn; lia).
    replace (dir ++ String "/" file)%string
      with ((dir ++ "/") ++ file)%string.
    - now rewrite string_drop_app.
    - clear. induction dir as [|x dir IH]; cbn; congruence. }
  split; [exact Hbase|]. split; [|split].
  - unfold banner_database_field, lastIndexOf.
    now rewrite (lastIndexOf_from_absent "/" file 0 (-1) H).
  - unfold padEnd. rewrite string_length_app, length_spaces. lia.
  - assert (banner_database_field ((dir ++ "/data") ++ String "/" "kuma.db")
            = padEnd 47 "kuma.db") as Hk.
    { unfold banner_database_field, substring_from.
      rewrite (lastIndexOf_separator (dir ++ "/data") "kuma.db" eq_refl).
      replace (Z.to_nat (Z.of_nat (String.length (dir ++ "/data")) + 1))
        with (String.length ((dir ++ "/data") ++ "/")%string)
        by (rewrite !string_length_app; cbn; lia).
      replace ((dir ++ "/data") ++ String "/" "kuma.db")%string
        with (((dir ++ "/data") ++ "/") ++ "kuma.db")%string.
      - now rewrite string_drop_app.
      - clear. induction dir as [|x dir IH]; cbn; congruence. }
    replace (dir ++ "/data/kuma.db")%string
      with ((dir ++ "/data") ++ String "/" "kuma.db")%string; [exact Hk|].
    clear. induction dir as [|x dir IH]; cbn; congruence.
Qed.

Lemma banner_database_field_spec_witness :
  has_char "/" "kuma.db" = false
  /\ banner_database_field ("/srv/app/data" ++ String "/" "kuma.db")
     = padEnd 47 "kuma.db".
Proof.
  split; [reflexivity|].
  exact (proj1 (banner_database_field_spec "/srv/app/data" "kuma.db" eq_refl)).
Defined.

(** ** The numbers a run prints *)

Lemma clear_totals db :
  exists n,
    snd (clearMonitors db) = [LogCleared n]
    /\ n + count_monitors (fst (clearMonitors db)) = count_monitors db.
Proof.
  exists (List.length (filter clear_matches (monitor db))).
  split; [reflexivity|].
  unfold clearMonitors, count_monitors. cbn [fst monitor].
  apply filter_partition_length.
Qed.

Lemma before_seed_totals argv db :
  exists cleared,
    snd (before_seed argv db) = map LogCleared cleared
    /\ List.length cleared
       = (if shouldClear (skipn 2 argv) then 1 else 0)
         + (if shouldForce (skipn 2 argv) then 1 else 0)
    /\ list_sum cleared + count_monitors (fst (before_seed argv db))
       = count_monitors db.
Proof.
  unfold before_seed. cbv zeta. cbn [fst snd].
  set (c1 := if shouldClear (skipn 2 argv) then clearMonitors db else (db, [])).
  assert (exists n1, snd c1 = map LogCleared n1
            /\ List.length n1 = (if shouldClear (skipn 2 argv) then 1 else 0)
            /\ list_sum n1 + count_monitors (fst c1) = count_monitors db)
    as (n1 & Ho1 & Hl1 & Hc1).
  { subst c1. destruct (shouldClear (skipn 2 argv)).
    - destruct (clear_totals db) as (n & Ho & Hc).
      exists [n]. split; [exact Ho|]. split; [reflexivity|].
      unfold list_sum. cbn [fold_right]. lia.
    - exists []. repeat split. }
  destruct (shouldForce (skipn 2 argv)).
  - destruct (clear_totals (fst c1)) as (n & Ho & Hc).
    exists (n1 ++ [n]). rewrite Ho1, Ho, map_app, length_app, list_sum_app.
    split; [reflexivity|]. split; [cbn [List.length]; lia|].
    unfold list_sum at 2. cbn [fold_right]. lia.
  - exists n1. cbn [fst snd]. rewrite app_nil_r. repeat split; trivial; lia.
Qed.

(** X12.  The numbers of a run whose INSERTs all succeed agree: it
    exits with status 0, and its output is the banner, one "cleared"
    line per flag given, one line per definition, the summary, the
    total and the closing message; inserted plus skipped is the size of
    the catalogue, and the total is the number of rows found, minus the
    rows cleared, plus the rows inserted.  The INSERTs all succeed
    whenever a row id is left for each of the 22 definitions. *)
Theorem run_totals (argv : list string) (db : Database) :
  (seedMonitors_throws (fst (before_seed argv db)) = false ->
   exists cleared lines ins skp total,
     main argv (Some db)
     = (0%Z, Some (fst (seedMonitors (fst (before_seed argv db)))),
        [LogBanner] ++ map LogCleared cleared ++ lines
          ++ [LogSummary ins skp; LogTotal total; LogComplete])
     /\ List.length cleared
        = (if shouldClear (skipn 2 argv) then 1 else 0)
          + (if shouldForce (skipn 2 argv) then 1 else 0)
     /\ map line_name lines = map (fun d => Some (Def.name d)) monitors
     /\ ins = count_lines is_inserted lines
     /\ skp = count_lines is_skipped lines
     /\ ins + skp = List.length monitors
     /\ total + list_sum cleared = count_monitors db + ins)
  /\ (rowids_left (List.length monitors) db ->
      seedMonitors_throws (fst (before_seed argv db)) = false).
Proof.
  split; [|intros Hleft; apply seed_completes; now apply before_seed_rowids].
  intros Hok.
  destruct (before_seed_totals argv db) as (cleared & Hb & Hlen & Hsum).
  destruct (seed_catalogue_lines monitors (fst (before_seed argv db)))
    as (lines & Ho & Hn & Hc & _ & Hl).
  fold (seedMonitors (fst (before_seed argv db))) in Ho, Hc.
  fold (seedMonitors_throws (fst (before_seed argv db))) in Ho, Hl.
  destruct (Hl Hok) as [Hll Hs]. rewrite Hll, firstn_all in Hn.
  rewrite Hok in Ho.
  exists cleared, lines, (count_lines is_inserted lines),
    (count_lines is_skipped lines),
    (count_monitors (fst (seedMonitors (fst (before_seed argv db))))).
  split.
  - rewrite main_before_seed. cbv zeta. rewrite Hok, Ho, Hb, <- !app_assoc.
    reflexivity.
  - repeat split; trivial. rewrite Hc. lia.
Qed.

Lemma run_totals_witness :
  rowids_left (List.length monitors) empty_db
  /\ seedMonitors_throws (fst (before_seed (bun_argv ["-c"]) empty_db)) = false
  /\ exit_status (main (bun_argv ["-c"]) (Some empty_db)) = 0%Z.
Proof.
  assert (rowids_left (List.length monitors) empty_db) as Hleft
    by (vm_compute; discriminate).
  pose proof (proj2 (run_totals (bun_argv ["-c"]) empty_db) Hleft) as Hok.
  split; [exact Hleft|]. split; [exact Hok|].
  destruct (proj1 (run_totals (bun_argv ["-c"]) empty_db) Hok)
    as (cleared & lines & ins & skp & total & Hmain & _).
  now rewrite Hmain.
Defined.

(** X13.  With a clear flag and a force flag together the second clear
    finds nothing: the run prints a second "cleared" line with 0. *)
Theorem both_flags_second_clear_is_empty (argv : list string) (db : Database) :
  shouldClear (skipn 2 argv) = true ->
  shouldForce (skipn 2 argv) = true ->
  exists n rest,
    output (main argv (Some db))
    = LogBanner :: LogCleared n :: LogCleared 0 :: rest
    /\ n + count_monitors (fst (clearMonitors db)) = count_monitors db.
Proof.
  intros Hc Hf. rewrite main_unfold. cbv zeta. rewrite Hc, Hf.
  destruct (clear_totals db) as (n & Ho & Hn).
  assert (snd (clearMonitors (fst (clearMonitors db))) = [LogCleared 0])
    as Ho2.
  { unfold clearMonitors. cbn [fst snd monitor]. now rewrite filter_none. }
  exists n.
  match goal with |- context [if seedMonitors_throws ?d then _ else _] =>
    destruct (seedMonitors_throws d) end;
    unfold output; cbn [snd fst]; rewrite Ho, Ho2;
    eexists; (split; [reflexivity|exact Hn]).
Qed.

Lemma both_flags_second_clear_is_empty_witness :
  shouldClear (skipn 2 (bun_argv ["--clear"; "-f"])) = true
  /\ shouldForce (skipn 2 (bun_argv ["--clear"; "-f"])) = true
  /\ exists n rest,
       output (main (bun_argv ["--clear"; "-f"]) (Some empty_db))
       = LogBanner :: LogCleared n :: LogCleared 0 :: rest
       /\ n + count_monitors (fst (clearMonitors empty_db))
          = count_monitors empty_db.
Proof.
  split; [reflexivity|]. split; [reflexivity|].
  apply (both_flags_second_clear_is_empty (bun_argv ["--clear"; "-f"]) empty_db);
    reflexivity.
Defined.

(** ** Running out of row ids *)

Lemma seed_loop_exhausted_throws defs : forall st d,
  (MAX_ROWID <= rowid_mark (st_db st))%Z ->
  In d defs ->
  has_url (monitor_url d) (st_db st) = false ->
  thrown (seed_loop defs st) = true
  /\ exists lines,
       st_out (seed_loop defs st) = st_out st ++ lines
       /\ Forall (fun e => is_skipped e = true) lines
       /\ List.length lines < List.length defs.
Proof.
  induction defs as [|m defs IH]; intros st d Hfull Hd Hnone; [contradiction|].
  rewrite seed_loop_cons.
  seed_cases st m.
  - destruct Hd as [->|Hd]; [congruence|].
    match goal with |- context [seed_loop defs ?s] =>
      destruct (IH s d Hfull Hd Hnone) as (Ht & lines & Ho & Hall & Hlen) end.
    split; [exact Ht|].
    exists (LogSkipped (Def.name m) :: lines). cbn [st_out] in Ho.
    rewrite Ho, <- app_assoc. split; [reflexivity|].
    split; [now constructor|cbn; lia].
  - apply next_rowid_value in Hid. lia.
  - split; [reflexivity|]. exists []. cbn [st_out List.length].
    rewrite app_nil_r. split; [reflexivity|]. split; [constructor|lia].
Qed.

(** X14.  With the row ids used up, a seed run over a catalogue that
    has a definition without a row throws: it leaves the storage as it
    found it, and what it printed are "skipped" lines only, fewer than
    there are definitions, and no summary. *)
Theorem seed_fails_without_rowids
    (defs : list Def.t) (db : Database) (d : Def.t) :
  (MAX_ROWID <= rowid_mark db)%Z ->
  In d defs ->
  existingStmt_get db (monitor_url d) = None ->
  seed_throws defs db = true
  /\ fst (seed_catalogue defs db) = db
  /\ Forall (fun e => is_skipped e = true) (snd (seed_catalogue defs db))
  /\ List.length (snd (seed_catalogue defs db)) < List.length defs.
Proof.
  intros Hfull Hd Hnone. apply existing_none_iff in Hnone.
  destruct (seed_loop_exhausted_throws defs (mkSeedState db 0 0 [] false) d
              Hfull Hd Hnone) as (Ht & lines & Ho & Hall & Hlen).
  fold (seed_run defs db) in Ht, Ho. cbn [st_out app] in Ho.
  split; [exact Ht|]. split.
  - rewrite seed_catalogue_storage.
    now apply (seed_loop_exhausted defs (mkSeedState db 0 0 [] false)).
  - rewrite seed_catalogue_output. unfold seed_throws.
    rewrite Ht, Ho, app_nil_r. auto.
Qed.

Lemma seed_fails_without_rowids_witness :
  (MAX_ROWID <= rowid_mark (nearly_full_db 0))%Z
  /\ In (plain "Ping" "/ping" "Simple ping/pong") monitors
  /\ existingStmt_get (nearly_full_db 0)
       (monitor_url (plain "Ping" "/ping" "Simple ping/pong")) = None
  /\ seedMonitors_throws (nearly_full_db 0) = true.
Proof.
  assert ((MAX_ROWID <= rowid_mark (nearly_full_db 0))%Z) as Hfull
    by (vm_compute; discriminate).
  assert (In (plain "Ping" "/ping" "Simple ping/pong") monitors) as Hin.
  { unfold monitors. do 16 right. now left. }
  split; [exact Hfull|]. split; [exact Hin|]. split; [reflexivity|].
  exact (proj1 (seed_fails_without_rowids monitors (nearly_full_db 0)
                  (plain "Ping" "/ping" "Simple ping/pong")
                  Hfull Hin eq_refl)).
Defined.

Lemma seed_loop_partial defs : forall st k,
  NoDup (map monitor_url defs) ->
  (forall d, In d defs -> has_url (monitor_url d) (st_db st) = false) ->
  (rowid_mark (st_db st) + Z.of_nat k = MAX_ROWID)%Z ->
  k < List.length defs ->
  thrown (seed_loop defs st) = true
  /\ st_out (seed_loop defs st)
     = st_out st ++ map (fun d => LogInserted (Def.name d)) (firstn k defs)
  /\ count_monitors (st_db (seed_loop defs st))
     = count_monitors (st_db st) + k.
Proof.
  induction defs as [|m defs IH]; intros st k Hnd Hnone Hmark Hk;
    [cbn in Hk; lia|].
  cbn [map] in Hnd. apply NoDup_cons_iff in Hnd as [Hm Hnd].
  rewrite seed_loop_cons.
  pose proof (Hnone m (or_introl eq_refl)) as Hfresh.
  destruct k as [|k].
  - assert (next_rowid (st_db st) = None) as Hid
      by (apply next_rowid_none; lia).
    rewrite (seed_step_throw st m Hfresh Hid). cbn [thrown st_out st_db firstn map].
    rewrite app_nil_r, Nat.add_0_r. auto.
  - assert (next_rowid (st_db st) = Some (rowid_mark (st_db st) + 1)%Z) as Hid
      by (apply next_rowid_some; lia).
    rewrite (seed_step_insert st m _ Hfresh Hid). cbn [thrown].
    match goal with |- context [seed_loop defs ?s] => set (st1 := s) end.
    destruct (IH st1 k Hnd) as (Ht & Ho & Hc).
    + intros d Hd. subst st1. cbn [st_db].
      rewrite has_url_with_row, where_url_row_of_def, Hnone by now right.
      cbn [orb]. apply String.eqb_neq. intros Heq. apply Hm. rewrite Heq.
      now apply in_map.
    + subst st1. cbn [st_db].
      rewrite (rowid_mark_with_row _ _ _ Hid) by reflexivity. lia.
    + cbn [List.length] in Hk. lia.
    + split; [exact Ht|]. rewrite Ho, Hc. subst st1.
      unfold count_monitors.
      cbn [st_out st_db with_row monitor firstn map].
      rewrite <- app_assoc, length_app. cbn [List.length app]. split; [reflexivity|lia].
Qed.

(** X15.  A table without rows that has [k] row ids left, fewer than a
    catalogue of pairwise different paths has definitions: the seed run
    inserts the first [k] definitions, prints their "inserted" lines
    and no summary, keeps those [k] rows and throws; [main] without
    flags then exits with status 1. *)
Theorem seed_stops_at_last_rowid (defs : list Def.t) (db : Database) (k : nat) :
  NoDup (map Def.path defs) ->
  monitor db = [] ->
  (rowid_mark db + Z.of_nat k = MAX_ROWID)%Z ->
  k < List.length defs ->
  seed_throws defs db = true
  /\ snd (seed_catalogue defs db)
     = map (fun d => LogInserted (Def.name d)) (firstn k defs)
  /\ count_monitors (fst (seed_catalogue defs db)) = k
  /\ (defs = monitors ->
      main (bun_argv []) (Some db)
      = (1%Z, Some (fst (seedMonitors db)),
         [LogBanner]
           ++ map (fun d => LogInserted (Def.name d)) (firstn k monitors)
           ++ [LogUncaught])).
Proof.
  intros Hnd Hempty Hmark Hk.
  destruct (seed_loop_partial defs (mkSeedState db 0 0 [] false) k)
    as (Ht & Ho & Hc); trivial.
  { now apply NoDup_map_url. }
  { intros d _. cbn [st_db]. unfold has_url. now rewrite Hempty. }
  fold (seed_run defs db) in Ht, Ho, Hc. cbn [st_out st_db app] in Ho, Hc.
  assert (snd (seed_catalogue defs db)
          = map (fun d => LogInserted (Def.name d)) (firstn k defs)) as Hout.
  { rewrite seed_catalogue_output. unfold seed_throws.
    now rewrite Ht, Ho, app_nil_r. }
  split; [exact Ht|]. split; [exact Hout|]. split.
  - rewrite seed_catalogue_storage, Hc. unfold count_monitors.
    now rewrite Hempty.
  - intros ->. rewrite main_before_seed. cbv zeta.
    change (before_seed (bun_argv []) db) with (db, @nil event).
    cbn [fst snd].
    change (seedMonitors_throws db = true) in Ht.
    change (snd (seedMonitors db)
            = map (fun d => LogInserted (Def.name d)) (firstn k monitors))
      in Hout.
    rewrite Ht, Hout. reflexivity.
Qed.

Lemma seed_stops_at_last_rowid_witness :
  NoDup (map Def.path monitors)
  /\ monitor (nearly_full_db 5) = []
  /\ (rowid_mark (nearly_full_db 5) + Z.of_nat 5 = MAX_ROWID)%Z
  /\ 5 < List.length monitors
  /\ count_monitors (fst (seed_catalogue monitors (nearly_full_db 5))) = 5.
Proof.
  assert (5 < List.length monitors) as Hk by (vm_compute; lia).
  split; [exact monitors_paths_distinct|]. split; [reflexivity|].
  split; [reflexivity|]. split; [exact Hk|].
  exact (proj1 (proj2 (proj2 (seed_stops_at_last_rowid monitors
                                (nearly_full_db 5) 5
                                monitors_paths_distinct eq_refl eq_refl Hk)))).
Defined.
